(** * DA-inclusion advancement loop and node test helpers

    A shallow embedding of [block.Manager.DAIncluderLoop],
    [block.Manager.incrementDAIncludedHeight] and of the helpers of
    [node/helpers.go] ([getNodeHeight], [Retry],
    [waitForAtLeastNDAIncludedHeight], ...), with the properties the
    specification states about them.

    Conventions.
    - A Go [uint64] is a [Z] in [0, 2^64); [add64] is Go's wrapping [+].
      A Go [int] is a [Z] in [-2^63, 2^63) (the node is built for 64-bit
      targets); [int_wrap] is the two's complement wrap of [+] and [-].
    - A Go [error] is an [option error]: [None] is [nil].
    - Go code with effects is a function from the state to a [Res]: how the
      call ended, the state it left, and the trace of effects it performed.
      Loops that Go does not bound take a fuel argument. *)

From Stdlib Require Import ZArith List String Bool Lia.
From Stdlib Require Init.Byte.
Import ListNotations.
Local Open Scope string_scope.
Local Open Scope list_scope.
Local Open Scope Z_scope.

Set Implicit Arguments.

(** ** Machine integers *)

Definition MaxUint64 : Z := 2 ^ 64 - 1.
Definition MaxInt : Z := 2 ^ 63 - 1.
Definition MinInt : Z := - 2 ^ 63.

(** [a + b] on [uint64]. *)
Definition add64 (a b : Z) : Z := (a + b) mod 2 ^ 64.

(** The value an [int] expression has after overflow. *)
Definition int_wrap (x : Z) : Z := (x + 2 ^ 63) mod 2 ^ 64 - 2 ^ 63.

Definition is_uint64 (v : Z) : Prop := 0 <= v <= MaxUint64.

(** [byte(v)]: the low 8 bits. *)
Definition byte_of_Z (v : Z) : Byte.byte :=
  match Byte.of_N (Z.to_N (Z.land v 255)) with
  | Some b => b
  | None => Byte.x00
  end.

(** [binary.LittleEndian.PutUint64(b, v)] on a fresh 8-byte slice. *)
Definition PutUint64 (v : Z) : list Byte.byte :=
  [ byte_of_Z v;
    byte_of_Z (Z.shiftr v 8);
    byte_of_Z (Z.shiftr v 16);
    byte_of_Z (Z.shiftr v 24);
    byte_of_Z (Z.shiftr v 32);
    byte_of_Z (Z.shiftr v 40);
    byte_of_Z (Z.shiftr v 48);
    byte_of_Z (Z.shiftr v 56) ].

(** [binary.LittleEndian.Uint64(b)], the reader of what [PutUint64] wrote. *)
Fixpoint Uint64 (b : list Byte.byte) : Z :=
  match b with
  | [] => 0
  | x :: rest => Z.lor (Z.of_N (Byte.to_N x)) (Z.shiftl (Uint64 rest) 8)
  end.

(** ** Errors *)

(** The error values the code builds: [errors.New(text)],
    [fmt.Errorf(format, args...)] with integer arguments,
    [fmt.Errorf(format, err)] wrapping [err] through [%w], and the run-time
    errors behind a failed type assertion or a nil dereference. *)
Inductive error : Type :=
| errors_New (text : string)
| fmt_Errorf (format : string) (args : list Z)
| fmt_Errorf_w (format : string) (err : error)
| runtime_Error (text : string).

(** ** Effects: state, trace, panic *)

Inductive Outcome (A : Type) : Type :=
| Returns (a : A)
| Panics (e : error)
| OutOfFuel.

Arguments Panics {A} e.
Arguments OutOfFuel {A}.

Section Effects.
Variables St Ev : Type.

Record Res (A : Type) : Type := mkRes
  { outcome : Outcome A;
    final : St;
    trace : list Ev }.

Definition M (A : Type) : Type := St -> Res A.

Definition ret {A} (a : A) : M A := fun s => mkRes (Returns a) s [].

Definition bind {A B} (c : M A) (k : A -> M B) : M B := fun s =>
  let r := c s in
  match outcome r with
  | Returns a =>
      let r' := k a (final r) in
      mkRes (outcome r') (final r') (trace r ++ trace r')
  | Panics e => mkRes (Panics e) (final r) (trace r)
  | OutOfFuel => mkRes OutOfFuel (final r) (trace r)
  end.

Definition panic {A} (e : error) : M A := fun s => mkRes (Panics e) s [].
Definition out_of_fuel {A} : M A := fun s => mkRes OutOfFuel s [].
Definition emit (ev : Ev) : M unit := fun s => mkRes (Returns tt) s [ev].

(** A call that steps the state and is recorded in the trace. *)
Definition call {A} (step : St -> A * St) (record : A -> Ev) : M A := fun s =>
  let '(a, s') := step s in mkRes (Returns a) s' [record a].
End Effects.

Arguments ret {St Ev A} a.
Arguments bind {St Ev A B} c k.
Arguments panic {St Ev A} e.
Arguments out_of_fuel {St Ev A}.
Arguments emit {St Ev} ev.
Arguments call {St Ev A} step record.

Declare Scope go_scope.
Notation "x <- c ;; k" := (bind c (fun x => k))
  (at level 61, c at next level, right associativity) : go_scope.
Notation "c ;; k" := (bind c (fun _ => k))
  (at level 61, right associativity) : go_scope.
Local Open Scope go_scope.

(** ** The block manager: [DAIncluderLoop] and [incrementDAIncludedHeight] *)

Inductive LogLevel : Type := Debug | Error.

(** What the loop does that the rest of the process can see, in order. *)
Inductive Event : Type :=
| EvLoad (v : Z)
| EvIsDAIncluded (height : Z) (daIncluded : bool) (err : option error)
| EvSetFinal (height : Z) (err : option error)
| EvSetMetadata (key : string) (value : list Byte.byte) (err : option error)
| EvCompareAndSwap (old new : Z) (swapped : bool)
| EvLog (level : LogLevel) (msg : string) (height : Z) (err : option error).

(** What the [select] at the top of the loop received. *)
Inductive Wake : Type := CtxDone | DaIncluderCh.

(** How a run of the loop over finitely many wake-ups ends: the function
    returned, or it is blocked in [select] again. *)
Inductive LoopExit : Type := Returned | Idle.

Section BlockManager.
(** Everything of the process besides the height cell: the executor, the
    store, the caches behind [IsDAIncluded], other goroutines. *)
Variable Env : Type.

(** Modelled from the spec: the declaration of [Manager] is in another file
    of the package. Of its fields the two functions use the atomic height
    cell [daIncludedHeight] (an [atomic.Uint64]), the executor [exec], the
    store [store], the logger and the trigger channel; all but the cell are
    in [env]. *)
Record Manager : Type := mkManager
  { daIncludedHeight : Z;
    env : Env }.

(** The key constant and the collaborators [m.IsDAIncluded],
    [m.exec.SetFinal] and [m.store.SetMetadata], whose code is elsewhere.
    While the loop is inside one of these calls the rest of the process
    runs, so each is a step on the whole [Manager]: a step that changes
    [daIncludedHeight] is another writer of the cell. What other goroutines
    do while the loop is blocked in [select] is part of the next step. *)
Variable DAIncludedHeightKey : string.
Variable m_IsDAIncluded : Z -> Manager -> (bool * option error) * Manager.
Variable exec_SetFinal : Z -> Manager -> option error * Manager.
Variable store_SetMetadata :
  string -> list Byte.byte -> Manager -> option error * Manager.

Definition Go := M Manager Event.

(** Modelled from the spec: the body of [GetDAIncludedHeight] is in another
    file of the package; by the spec readers read the atomic height cell
    directly. *)
Definition GetDAIncludedHeight : Go Z := fun m =>
  mkRes (Returns (daIncludedHeight m)) m [EvLoad (daIncludedHeight m)].

(** [m.daIncludedHeight.CompareAndSwap(old, new)]. *)
Definition CompareAndSwap (old new : Z) : Go bool := fun m =>
  if daIncludedHeight m =? old
  then mkRes (Returns true) (mkManager new (env m)) [EvCompareAndSwap old new true]
  else mkRes (Returns false) m [EvCompareAndSwap old new false].

Definition IsDAIncluded (height : Z) : Go (bool * option error) :=
  call (m_IsDAIncluded height)
       (fun r => EvIsDAIncluded height (fst r) (snd r)).

Definition SetFinal (height : Z) : Go (option error) :=
  call (exec_SetFinal height) (EvSetFinal height).

Definition SetMetadata (key : string) (value : list Byte.byte) : Go (option error) :=
  call (store_SetMetadata key value) (EvSetMetadata key value).

Definition logger_Debug (msg : string) (height : Z) : Go unit :=
  emit (EvLog Debug msg height None).
Definition logger_Debug_err (msg : string) (height : Z) (err : error) : Go unit :=
  emit (EvLog Debug msg height (Some err)).
Definition logger_Error (msg : string) (height : Z) (err : error) : Go unit :=
  emit (EvLog Error msg height (Some err)).

Definition incrementDAIncludedHeight : Go (option error) :=
  currentHeight <- GetDAIncludedHeight ;;
  let newHeight := add64 currentHeight 1 in
  logger_Debug "setting final" newHeight ;;
  err <- SetFinal newHeight ;;
  match err with
  | Some e =>
      logger_Error "failed to set final" newHeight e ;;
      ret (Some e)
  | None =>
      let heightBytes := PutUint64 newHeight in
      logger_Debug "setting DA included height" newHeight ;;
      err <- SetMetadata DAIncludedHeightKey heightBytes ;;
      match err with
      | Some e =>
          logger_Error "failed to set DA included height" newHeight e ;;
          ret (Some e)
      | None =>
          swapped <- CompareAndSwap currentHeight newHeight ;;
          if negb swapped
          then ret (Some (fmt_Errorf "failed to set DA included height: %d" [newHeight]))
          else ret None
      end
  end.

(** The inner [for] of [DAIncluderLoop], entered with [currentDAIncluded]. *)
Fixpoint drain (fuel : nat) (currentDAIncluded : Z) : Go unit :=
  match fuel with
  | O => out_of_fuel
  | S fuel' =>
      let nextHeight := add64 currentDAIncluded 1 in
      r <- IsDAIncluded nextHeight ;;
      let '(daIncluded, err) := r in
      match err with
      | Some err =>
          logger_Debug_err "no more blocks to check at this time" nextHeight err ;;
          ret tt
      | None =>
          if daIncluded
          then
            err <- incrementDAIncludedHeight ;;
            match err with
            | Some e =>
                panic (fmt_Errorf_w "error while incrementing DA included height: %w" e)
            | None => drain fuel' nextHeight
            end
          else ret tt
      end
  end.

(** One wake-up by the trigger channel: read the cell, then drain. *)
Definition drainPass (fuel : nat) : Go unit :=
  currentDAIncluded <- GetDAIncludedHeight ;;
  drain fuel currentDAIncluded.

(** [DAIncluderLoop] over the wake-ups its [select] receives; [fuel]
    bounds each drain. When the wake-ups are used up the loop is blocked
    in [select]. *)
Fixpoint DAIncluderLoop (fuel : nat) (wakes : list Wake) : Go LoopExit :=
  match wakes with
  | [] => ret Idle
  | CtxDone :: _ => ret Returned
  | DaIncluderCh :: rest =>
      drainPass fuel ;;
      DAIncluderLoop fuel rest
  end.

End BlockManager.

(** ** node/helpers.go *)

(** [type Source int] with its three named values. *)
Definition Source : Type := Z.
Definition Header : Source := 0.
Definition Block : Source := 1.
Definition Store : Source := 2.

(** [time.Millisecond], in nanoseconds. *)
Definition Millisecond : Z := 1000000.

(** What [Retry] does that can be seen from outside: it invokes [fn], with
    how that invocation ended, and it sleeps. *)
Inductive RetryEvent : Type :=
| EvFn (r : Outcome (option error))
| EvSleep (d : Z).

Fixpoint invocations (tr : list RetryEvent) : nat :=
  match tr with
  | [] => O
  | EvFn _ :: rest => S (invocations rest)
  | EvSleep _ :: rest => invocations rest
  end.

Section Helpers.
(** The state of the running process, which the polled node lives in, and
    what the rest of the process makes of it during a [time.Sleep]. *)
Variable World : Type.
Variable sleep : Z -> World -> World.

(** A [func() error]: it may change the state, and may panic. *)
Definition Func : Type := World -> Outcome (option error) * World.

Definition HGo := M World RetryEvent.

Definition invoke (fn : Func) : HGo (option error) := fun w =>
  let '(o, w') := fn w in mkRes o w' [EvFn o].

Definition time_Sleep (d : Z) : HGo unit := fun w =>
  mkRes (Returns tt) (sleep d w) [EvSleep d].

(** The [for i := 1; i <= tries-1; i++] of [Retry], entered with [i],
    and the [return fn()] after it. *)
Fixpoint Retry_from (fuel : nat) (i tries durationBetweenAttempts : Z)
         (fn : Func) : HGo (option error) :=
  match fuel with
  | O => out_of_fuel
  | S fuel' =>
      if i <=? int_wrap (tries - 1)
      then
        err <- invoke fn ;;
        match err with
        | None => ret None
        | Some _ =>
            time_Sleep durationBetweenAttempts ;;
            Retry_from fuel' (int_wrap (i + 1)) tries durationBetweenAttempts fn
        end
      else invoke fn
  end.

Definition Retry (fuel : nat) (tries durationBetweenAttempts : Z) (fn : Func)
  : HGo (option error) :=
  Retry_from fuel 1 tries durationBetweenAttempts fn.

(** Modelled from the spec: the declarations of [FullNode] and [LightNode]
    are in other files of the package. A full node has the header-sync
    view, the data-sync view and the block manager with its store height
    and DA-included height; a light node has the header-sync view only.
    A view is read off the running process. *)
Record FullNode : Type := mkFullNode
  { fn_hSyncService_Height : World -> Z;
    fn_dSyncService_Height : World -> Z;
    fn_GetStoreHeight : World -> Z * option error;
    fn_GetDAIncludedHeight : World -> Z }.

Record LightNode : Type := mkLightNode
  { ln_hSyncService_Height : World -> Z }.

(** A value of the interface [Node]: a pointer to a [FullNode] or to a
    [LightNode], either possibly nil, a value of some other type, or the
    nil interface. *)
Inductive Node : Type :=
| PtrFullNode (p : option FullNode)
| PtrLightNode (p : option LightNode)
| OtherNode
| NilNode.

(** The two-valued type assertions of [node] to a [FullNode] pointer and
    to a [LightNode] pointer: [None] is [ok = false]. *)
Definition as_FullNode (node : Node) : option (option FullNode) :=
  match node with PtrFullNode p => Some p | _ => None end.
Definition as_LightNode (node : Node) : option (option LightNode) :=
  match node with PtrLightNode p => Some p | _ => None end.

Definition nil_dereference : error :=
  runtime_Error "invalid memory address or nil pointer dereference".
Definition interface_conversion : error :=
  runtime_Error "interface conversion: node.Node is not *node.FullNode".

(** Reading a field through a pointer. *)
Definition deref {T A} (p : option T) (k : T -> Outcome A) : Outcome A :=
  match p with
  | Some x => k x
  | None => Panics nil_dereference
  end.

Definition getNodeHeightFromHeader (node : Node) (w : World)
  : Outcome (Z * option error) :=
  match as_FullNode node with
  | Some p => deref p (fun fn => Returns (fn_hSyncService_Height fn w, None))
  | None =>
      match as_LightNode node with
      | Some p => deref p (fun ln => Returns (ln_hSyncService_Height ln w, None))
      | None => Returns (0, Some (errors_New "not a full or light node"))
      end
  end.

Definition getNodeHeightFromBlock (node : Node) (w : World)
  : Outcome (Z * option error) :=
  match as_FullNode node with
  | Some p => deref p (fun fn => Returns (fn_dSyncService_Height fn w, None))
  | None => Returns (0, Some (errors_New "not a full node"))
  end.

Definition getNodeHeightFromStore (node : Node) (w : World)
  : Outcome (Z * option error) :=
  match as_FullNode node with
  | Some p => deref p (fun fn => Returns (fn_GetStoreHeight fn w))
  | None => Returns (0, Some (errors_New "not a full node"))
  end.

Definition getNodeHeight (node : Node) (source : Source) (w : World)
  : Outcome (Z * option error) :=
  if source =? Header then getNodeHeightFromHeader node w
  else if source =? Block then getNodeHeightFromBlock node w
  else if source =? Store then getNodeHeightFromStore node w
  else Returns (0, Some (errors_New "invalid source")).

(** The closure [waitForAtLeastNBlocks] hands to [Retry]. *)
Definition atLeastNBlocks (node : Node) (n : Z) (source : Source) : Func :=
  fun w =>
    match getNodeHeight node source w with
    | Returns (nHeight, Some err) => (Returns (Some err), w)
    | Returns (nHeight, None) =>
        if n <=? nHeight then (Returns None, w)
        else (Returns (Some (fmt_Errorf "expected height > %v, got %v" [n; nHeight])), w)
    | Panics e => (Panics e, w)
    | OutOfFuel => (OutOfFuel, w)
    end.

Definition waitForAtLeastNBlocks (fuel : nat) (node : Node) (n : Z) (source : Source)
  : HGo (option error) :=
  Retry fuel 300 (100 * Millisecond) (atLeastNBlocks node n source).

Definition waitForFirstBlock (fuel : nat) (node : Node) (source : Source)
  : HGo (option error) :=
  waitForAtLeastNBlocks fuel node 1 source.

(** The closure [waitForAtLeastNDAIncludedHeight] hands to [Retry]; its
    one-valued type assertion panics on a node of any other type. *)
Definition atLeastNDAIncludedHeight (node : Node) (n : Z) : Func :=
  fun w =>
    match as_FullNode node with
    | Some p =>
        (deref p (fun fn =>
           let nHeight := fn_GetDAIncludedHeight fn w in
           if nHeight =? 0
           then Returns (Some (fmt_Errorf "waiting for DA inclusion" []))
           else if n <=? nHeight then Returns None
           else Returns (Some (fmt_Errorf "expected height > %v, got %v" [n; nHeight]))),
         w)
    | None => (Panics interface_conversion, w)
    end.

Definition waitForAtLeastNDAIncludedHeight (fuel : nat) (node : Node) (n : Z)
  : HGo (option error) :=
  Retry fuel 300 (100 * Millisecond) (atLeastNDAIncludedHeight node n).

Definition waitForFirstBlockToBeDAIncludedHeight (fuel : nat) (node : Node)
  : HGo (option error) :=
  waitForAtLeastNDAIncludedHeight fuel node 1.

End Helpers.

(** ** Reading results and traces *)

(** The error of a failed compare-and-swap, and the value the loop panics
    with. *)
Definition cas_error (newHeight : Z) : error :=
  fmt_Errorf "failed to set DA included height: %d" [newHeight].

Definition increment_panic (e : error) : error :=
  fmt_Errorf_w "error while incrementing DA included height: %w" e.

(** The three steps of a height-commit, as they appear in a trace. *)
Definition is_commit_step (ev : Event) : bool :=
  match ev with
  | EvSetFinal _ _ | EvSetMetadata _ _ _ | EvCompareAndSwap _ _ _ => true
  | _ => false
  end.

Definition commit_steps (tr : list Event) : list Event := filter is_commit_step tr.



Definition is_cas (ev : Event) : bool :=
  match ev with EvCompareAndSwap _ _ _ => true | _ => false end.


Definition is_swap (ev : Event) : bool :=
  match ev with EvCompareAndSwap _ _ true => true | _ => false end.


(** How many times the cell was written. *)
Definition swaps (tr : list Event) : nat := List.length (filter is_swap tr).

(** A write of the cell, when the trace has one at this event, goes from
    [old] to [old + 1] on [uint64]; below the maximum that is an increase. *)
Definition write_is_increment (ev : Event) : Prop :=
  match ev with
  | EvCompareAndSwap old new true =>
      new = add64 old 1 /\ (old < MaxUint64 -> old < new)
  | _ => True
  end.


(** What the oracle answered, in order. *)
Definition is_oracle_answer (ev : Event) : bool :=
  match ev with EvIsDAIncluded _ _ _ => true | _ => false end.

Definition oracle_answers (tr : list Event) : list Event :=
  filter is_oracle_answer tr.


(** ** The properties' conditions on the collaborators *)

Section Conditions.
Variable Env : Type.
Variable DAIncludedHeightKey : string.
Variable m_IsDAIncluded : Z -> Manager Env -> (bool * option error) * Manager Env.
Variable exec_SetFinal : Z -> Manager Env -> option error * Manager Env.
Variable store_SetMetadata :
  string -> list Byte.byte -> Manager Env -> option error * Manager Env.

(** Invariant I2: nobody but the loop writes the cell, so no step of a
    collaborator changes it. *)
Definition single_writer : Prop :=
  (forall h m, daIncludedHeight (snd (m_IsDAIncluded h m)) = daIncludedHeight m)
  /\ (forall h m, daIncludedHeight (snd (exec_SetFinal h m)) = daIncludedHeight m)
  /\ (forall k v m, daIncludedHeight (snd (store_SetMetadata k v m)) = daIncludedHeight m).

(** The oracle confirms [h]: included, and no error. *)
Definition confirms (h : Z) : Prop :=
  forall m, fst (m_IsDAIncluded h m) = (true, None).


(** The Finality Sink and the store accept [h]. *)
Definition commits (h : Z) : Prop :=
  (forall m, fst (exec_SetFinal h m) = None)
  /\ (forall m, fst (store_SetMetadata DAIncludedHeightKey (PutUint64 h) m) = None).

End Conditions.

(** ** A scripted process, for running the loop on concrete inputs *)

Module Script.

(** What the collaborators will do: the heights the oracle confirms, those
    it cannot determine yet, those the executor and the store refuse, and
    a second writer that stores [intruder] in the cell during a store
    write. *)
Record Plan : Type := mkPlan
  { included : list Z;
    undetermined : list Z;
    finalRefused : list Z;
    storeRefused : list Z;
    intruder : option Z }.

(** What the executor and the store accepted so far. *)
Record Env : Type := mkEnv
  { finalized : list Z;
    metadata : list (string * list Byte.byte) }.

Definition mem (h : Z) (l : list Z) : bool := existsb (Z.eqb h) l.

Definition key : string := "d".

Definition isDAIncluded (p : Plan) (h : Z) (m : Manager Env)
  : (bool * option error) * Manager Env :=
  if mem h (undetermined p)
  then ((false, Some (errors_New "not found")), m)
  else ((mem h (included p), None), m).

Definition setFinal (p : Plan) (h : Z) (m : Manager Env)
  : option error * Manager Env :=
  if mem h (finalRefused p)
  then (Some (errors_New "set final refused"), m)
  else (None,
        mkManager (daIncludedHeight m)
          (mkEnv (h :: finalized (env m)) (metadata (env m)))).

Definition setMetadata (p : Plan) (k : string) (v : list Byte.byte) (m : Manager Env)
  : option error * Manager Env :=
  if mem (Uint64 v) (storeRefused p)
  then (Some (errors_New "write refused"), m)
  else (None,
        mkManager
          (match intruder p with Some x => x | None => daIncludedHeight m end)
          (mkEnv (finalized (env m)) ((k, v) :: metadata (env m)))).

(** The manager at height [h], nothing accepted yet. *)
Definition start (h : Z) : Manager Env := mkManager h (mkEnv [] []).

Definition loop (p : Plan)
  : nat -> list Wake -> Manager Env -> Res (Manager Env) Event LoopExit :=
  DAIncluderLoop key (isDAIncluded p) (setFinal p) (setMetadata p).

Definition increment (p : Plan)
  : Manager Env -> Res (Manager Env) Event (option error) :=
  incrementDAIncludedHeight key (setFinal p) (setMetadata p).

Definition store_refused : Plan := mkPlan [1] [] [] [1] None.
Definition gap_at_13 : Plan := mkPlan [11; 12; 14] [13] [] [] None.
Definition confirms_zero : Plan := mkPlan [0] [] [] [] None.

(** A [func() error] over a call counter: it fails until it has been
    called [failures] times, then succeeds. *)
Definition failing (failures : Z) : Func Z := fun calls =>
  if calls <? failures
  then (Returns (Some (fmt_Errorf "attempt %d failed" [calls + 1])), calls + 1)
  else (Returns None, calls + 1).

(** Sleeping leaves the counter alone. *)
Definition idle (d : Z) (calls : Z) : Z := calls.

(** A full node whose views read a fixed height off the process. *)
Definition fullNode (h : Z) : FullNode unit :=
  mkFullNode (fun _ => h) (fun _ => h) (fun _ => (h, None)) (fun _ => h).

Definition lightNode (h : Z) : LightNode unit := mkLightNode (fun _ => h).

End Script.

(** ** What the specification says of [Retry] and of the height views *)

Section RetrySpec.
Variable World : Type.
Variable sleep : Z -> World -> World.
Variable d : Z.
Variable fn : Func World.

(** The state in which invocation number [k + 1] of [fn] starts, when
    the [k] invocations before it returned and were each followed by a
    sleep. *)
Fixpoint state_before (k : nat) (w : World) : World :=
  match k with
  | O => w
  | S k' => sleep d (snd (fn (state_before k' w)))
  end.

(** How invocation number [k + 1] ends. *)
Definition attempt (k : nat) (w : World) : Outcome (option error) :=
  fst (fn (state_before k w)).

(** The state invocation number [k + 1] leaves. *)
Definition state_after (k : nat) (w : World) : World :=
  snd (fn (state_before k w)).

(** An invocation failed: it returned an error. *)
Definition failed (o : Outcome (option error)) : Prop :=
  exists e, o = Returns (Some e).

(** [n] rounds of the loop of [Retry], then its trailing call. *)
Fixpoint rounds (n : nat) : HGo World (option error) :=
  match n with
  | O => invoke fn
  | S n' =>
      err <- invoke fn ;;
      match err with
      | None => ret None
      | Some _ => time_Sleep sleep d ;; rounds n'
      end
  end.
End RetrySpec.

(** The views a node variant has, in the specification's words: the full
    node runs the header-sync, data-sync and store views, the light node
    "lacks the data-sync and store views", and nothing else is a node with
    views. *)
Definition supports {World} (node : Node World) (source : Source) : bool :=
  match node with
  | PtrFullNode _ => (source =? Header) || (source =? Block) || (source =? Store)
  | PtrLightNode _ => source =? Header
  | OtherNode _ | NilNode _ => false
  end.

(** The first [n] bytes of a value, least significant first. *)
Fixpoint le_bytes (n : nat) (v : Z) : list Byte.byte :=
  match n with
  | O => []
  | S n' => byte_of_Z v :: le_bytes n' (Z.shiftr v 8)
  end.

(** ** More readers of traces *)

(** The heights [SetFinal] was called with, in order. *)
Fixpoint final_calls (tr : list Event) : list Z :=
  match tr with
  | [] => []
  | EvSetFinal h _ :: rest => h :: final_calls rest
  | _ :: rest => final_calls rest
  end.

(** The height after [h], on [uint64], and the [j] heights after [H]. *)
Definition next_height (h : Z) : Z := add64 h 1.

Fixpoint consecutive (H : Z) (j : nat) : list Z :=
  match j with
  | O => []
  | S j' => next_height H :: consecutive (next_height H) j'
  end.

(** The value of the last store write that succeeded, [acc] when there is
    none. *)
Fixpoint last_stored (tr : list Event) (acc : option (list Byte.byte))
  : option (list Byte.byte) :=
  match tr with
  | [] => acc
  | EvSetMetadata _ v None :: rest => last_stored rest (Some v)
  | _ :: rest => last_stored rest acc
  end.

(** The durable record, as last written, and the cell agree: the record
    decodes to the cell's height, or nothing was written and the cell is
    at its first height [c0]. *)
Definition record_agrees (c0 : Z) (stored : option (list Byte.byte)) (cell : Z) : Prop :=
  match stored with
  | Some v => Uint64 v = cell
  | None => cell = c0
  end.

(** What a run keeps true, from a state [m]: the cell ends [swaps] heights
    further; [SetFinal] was called on the heights after the first one in
    order, one more than were committed exactly when a commit failed; and
    the record agrees with the cell when it did at the start. *)
Definition run_invariant {Env A} (failed_commit : Outcome A -> Prop)
           (c0 : Z) (acc : option (list Byte.byte))
           (m : Manager Env) (r : Res (Manager Env) Event A) : Prop :=
  let n := swaps (trace r) in
  daIncludedHeight (final r) = Nat.iter n next_height (daIncludedHeight m)
  /\ (~ failed_commit (outcome r) ->
      final_calls (trace r) = consecutive (daIncludedHeight m) n)
  /\ (failed_commit (outcome r) ->
      final_calls (trace r) = consecutive (daIncludedHeight m) (S n))
  /\ (record_agrees c0 acc (daIncludedHeight m) ->
      record_agrees c0 (last_stored (trace r) acc) (daIncludedHeight (final r))).

Definition panicked {A} (o : Outcome A) : Prop := exists e, o = Panics e.

(** The oracle's answer for a height does not depend on the state. *)
Definition stable_oracle {Env}
           (m_IsDAIncluded : Z -> Manager Env -> (bool * option error) * Manager Env)
  : Prop :=
  forall h m1 m2, fst (m_IsDAIncluded h m1) = fst (m_IsDAIncluded h m2).

(** An oracle that confirms every height, and a plan that refuses nothing. *)
Definition eager_oracle (h : Z) (m : Manager Script.Env)
  : (bool * option error) * Manager Script.Env :=
  ((true, None), m).

Definition no_refusal : Script.Plan := Script.mkPlan [] [] [] [] None.

(** A process whose state is a height that grows by one during each
    sleep, and a full node whose views all read that height. *)
Definition tick (d : Z) (height : Z) : Z := height + 1.

Definition growing_node : FullNode Z :=
  mkFullNode (fun h => h) (fun h => h) (fun h => (h, None)) (fun h => h).

(** The durations [Retry] slept, in order. *)
Fixpoint sleeps (tr : list RetryEvent) : list Z :=
  match tr with
  | [] => []
  | EvSleep d :: rest => d :: sleeps rest
  | EvFn _ :: rest => sleeps rest
  end.

(** The trace of a run of [Retry] whose invocations failed with [errs],
    each followed by a sleep of [d], before one that ended with [last]. *)
Definition retry_trace (d : Z) (errs : list error) (last : Outcome (option error))
  : list RetryEvent :=
  flat_map (fun e => [EvFn (Returns (Some e)); EvSleep d]) errs ++ [EvFn last].

(** A poll of [waitForAtLeastNBlocks] that fails: the view gives an error,
    or a height below the target. *)
Definition not_reached {World} (node : Node World) (source : Source) (n : Z) (w : World)
  : Prop :=
  match getNodeHeight node source w with
  | Returns (_, Some _) => True
  | Returns (h, None) => h < n
  | _ => False
  end.

(** The view a source names on a node that is not nil: its height, with
    the error of the store for the store view. *)
Definition view {World} (node : Node World) (source : Source) (w : World)
  : option (Z * option error) :=
  match node with
  | PtrFullNode (Some fn) =>
      if source =? Header then Some (fn_hSyncService_Height fn w, None)
      else if source =? Block then Some (fn_dSyncService_Height fn w, None)
      else if source =? Store then Some (fn_GetStoreHeight fn w)
      else None
  | PtrLightNode (Some ln) =>
      if source =? Header then Some (ln_hSyncService_Height ln w, None) else None
  | _ => None
  end.

(** A pointer to a node that is nil. *)
Definition nil_pointer {World} (node : Node World) : Prop :=
  node = PtrFullNode None \/ node = PtrLightNode None.

(** ** [safeClose] *)

(** A [chan struct{}] that is not nil: how many values a receive can take
    now, and whether the channel was closed. *)
Record Chan : Type := mkChan
  { pending : nat;
    closed : bool }.

(** [close(ch)]; [None] is the nil channel. *)
Definition close (ch : option Chan) : Outcome unit * option Chan :=
  match ch with
  | None => (Panics (runtime_Error "close of nil channel"), None)
  | Some c =>
      if closed c
      then (Panics (runtime_Error "close of closed channel"), Some c)
      else (Returns tt, Some (mkChan (pending c) true))
  end.

(** [safeClose(ch)]: the receive is taken when a value is pending or the
    channel is closed, the default otherwise. [meanwhile] is what other
    goroutines do to the channel between the [select] and the [close]. *)
Definition safeClose (meanwhile : Chan -> Chan) (ch : option Chan)
  : Outcome unit * option Chan :=
  match ch with
  | None => close None
  | Some c =>
      match pending c with
      | S n => (Returns tt, Some (mkChan n (closed c)))
      | O =>
          if closed c
          then (Returns tt, Some c)
          else close (Some (meanwhile c))
      end
  end.

(** ** [InitFiles] *)

Inductive FsEvent : Type :=
| EvMkdirAll (path : string) (perm : Z) (err : option error)
| EvLoadOrGenNodeKey (path : string) (err : option error).

Section Files.
(** The file system, the node keys, and the three library functions
    [InitFiles] calls. *)
Variable FS : Type.
Variable NodeKey : Type.
Variable filepath_Join : string -> string -> string.
Variable os_MkdirAll : string -> Z -> FS -> option error * FS.
Variable key_LoadOrGenNodeKey : string -> FS -> (option NodeKey * option error) * FS.

Definition MkdirAll (path : string) (perm : Z) : M FS FsEvent (option error) :=
  call (os_MkdirAll path perm) (EvMkdirAll path perm).

Definition LoadOrGenNodeKey (path : string)
  : M FS FsEvent (option NodeKey * option error) :=
  call (key_LoadOrGenNodeKey path) (fun r => EvLoadOrGenNodeKey path (snd r)).

(** Octal 0700. *)
Definition perm_0700 : Z := 448.

Definition InitFiles (dir : string) : M FS FsEvent (option NodeKey * option error) :=
  let configDir := filepath_Join dir "config" in
  err <- MkdirAll configDir perm_0700 ;;
  match err with
  | Some e => ret (None, Some (fmt_Errorf_w "failed to create config directory: %w" e))
  | None =>
      r <- LoadOrGenNodeKey configDir ;;
      let '(nodeKey, err) := r in
      match err with
      | Some e => ret (None, Some (fmt_Errorf_w "failed to create node key: %w" e))
      | None => ret (nodeKey, None)
      end
  end.
End Files.

(** * Proofs *)

Arguments add64 : simpl never.
Arguments int_wrap : simpl never.
Arguments PutUint64 : simpl never.
Arguments Uint64 : simpl never.
Arguments incrementDAIncludedHeight : simpl never.

(** ** Sequencing *)

Lemma bind_unfold {St Ev A B} (c : M St Ev A) (k : A -> M St Ev B) (s : St) :
  bind c k s =
  match outcome (c s) with
  | Returns a =>
      mkRes (outcome (k a (final (c s)))) (final (k a (final (c s))))
        (trace (c s) ++ trace (k a (final (c s))))
  | Panics e => mkRes (Panics e) (final (c s)) (trace (c s))
  | OutOfFuel => mkRes OutOfFuel (final (c s)) (trace (c s))
  end.
Proof. reflexivity. Qed.

(** ** Machine integers and the encoding of a height *)

Lemma add64_range (a b : Z) : 0 <= add64 a b <= MaxUint64.
Proof.
  unfold add64, MaxUint64.
  pose proof (Z.mod_pos_bound (a + b) (2 ^ 64) ltac:(lia)). lia.
Qed.

Lemma add64_small (a b : Z) : 0 <= a + b <= MaxUint64 -> add64 a b = a + b.
Proof.
  unfold add64, MaxUint64. intros H. apply Z.mod_small. lia.
Qed.

Lemma add64_max : add64 MaxUint64 1 = 0.
Proof. reflexivity. Qed.

Lemma int_wrap_small (x : Z) : MinInt <= x <= MaxInt -> int_wrap x = x.
Proof.
  unfold int_wrap, MinInt, MaxInt. intros H.
  rewrite Z.mod_small by lia. lia.
Qed.

Lemma int_wrap_below_min : int_wrap (MinInt - 1) = MaxInt.
Proof. reflexivity. Qed.

Lemma byte_of_Z_to_N (v : Z) : Z.of_N (Byte.to_N (byte_of_Z v)) = Z.land v 255.
Proof.
  unfold byte_of_Z.
  assert (Hr : 0 <= Z.land v 255 < 256).
  { change 255 with (Z.ones 8). rewrite Z.land_ones by lia.
    apply Z.mod_pos_bound. lia. }
  destruct (Byte.of_N (Z.to_N (Z.land v 255))) eqn:E.
  - apply Byte.to_of_N in E. rewrite E. apply Z2N.id. lia.
  - apply Byte.of_N_None_iff in E. lia.
Qed.

Lemma low_byte_and_rest (v : Z) :
  Z.lor (Z.land v 255) (Z.shiftl (Z.shiftr v 8) 8) = v.
Proof.
  apply Z.bits_inj'. intros i Hi.
  rewrite Z.lor_spec, Z.land_spec.
  change 255 with (Z.ones 8).
  destruct (Z.ltb_spec i 8) as [Hlt | Hge].
  - rewrite Z.ones_spec_low by lia.
    rewrite Z.shiftl_spec_low by lia.
    rewrite andb_true_r, orb_false_r. reflexivity.
  - rewrite Z.ones_spec_high by lia.
    rewrite Z.shiftl_spec by lia.
    rewrite Z.shiftr_spec by lia.
    rewrite andb_false_r. simpl. f_equal. lia.
Qed.

Lemma Uint64_le_bytes (n : nat) :
  forall v, 0 <= v < 2 ^ (8 * Z.of_nat n) -> Uint64 (le_bytes n v) = v.
Proof.
  induction n as [| n IH]; intros v Hv.
  - change (2 ^ (8 * Z.of_nat 0)) with 1 in Hv.
    replace v with 0 by lia. reflexivity.
  - cbn [le_bytes]. unfold Uint64; fold Uint64.
    rewrite byte_of_Z_to_N, IH, low_byte_and_rest; [reflexivity |].
    rewrite Z.shiftr_div_pow2 by lia.
    replace (8 * Z.of_nat (S n)) with (8 + 8 * Z.of_nat n) in Hv by lia.
    rewrite Z.pow_add_r in Hv by lia.
    change (2 ^ 8) with 256 in *.
    set (P := 2 ^ (8 * Z.of_nat n)) in *.
    assert (HP : 0 < P) by (apply Z.pow_pos_nonneg; lia).
    split.
    + apply Z.div_pos; lia.
    + apply Z.div_lt_upper_bound; lia.
Qed.

Lemma PutUint64_le_bytes (v : Z) : PutUint64 v = le_bytes 8 v.
Proof.
  unfold PutUint64. cbn [le_bytes].
  rewrite !Z.shiftr_shiftr by lia. reflexivity.
Qed.

Lemma Uint64_PutUint64 (v : Z) : 0 <= v <= MaxUint64 -> Uint64 (PutUint64 v) = v.
Proof.
  intros H. rewrite PutUint64_le_bytes. apply Uint64_le_bytes.
  unfold MaxUint64 in H. change (2 ^ (8 * Z.of_nat 8)) with (2 ^ 64). lia.
Qed.

(** ** [incrementDAIncludedHeight] *)

Section ManagerFacts.
Variable Env : Type.
Variable key : string.
Variable isDA : Z -> Manager Env -> (bool * option error) * Manager Env.
Variable setFinal : Z -> Manager Env -> option error * Manager Env.
Variable setMeta : string -> list Byte.byte -> Manager Env -> option error * Manager Env.

Local Notation "'increment'" := (incrementDAIncludedHeight key setFinal setMeta).
Local Notation "'drain_'" := (drain key isDA setFinal setMeta).
Local Notation "'pass_'" := (drainPass key isDA setFinal setMeta).
Local Notation "'loop_'" := (DAIncluderLoop key isDA setFinal setMeta).

(** The call unfolded: one result per way the three steps can go. *)
Lemma increment_unfold (m : Manager Env) :
  let H := daIncludedHeight m in
  let next := add64 H 1 in
  increment m =
  match setFinal next m with
  | (Some e, m1) =>
      mkRes (Returns (Some e)) m1
        [EvLoad H; EvLog Debug "setting final" next None;
         EvSetFinal next (Some e);
         EvLog Error "failed to set final" next (Some e)]
  | (None, m1) =>
      match setMeta key (PutUint64 next) m1 with
      | (Some e, m2) =>
          mkRes (Returns (Some e)) m2
            [EvLoad H; EvLog Debug "setting final" next None;
             EvSetFinal next None;
             EvLog Debug "setting DA included height" next None;
             EvSetMetadata key (PutUint64 next) (Some e);
             EvLog Error "failed to set DA included height" next (Some e)]
      | (None, m2) =>
          let swapped := daIncludedHeight m2 =? H in
          mkRes (Returns (if swapped then None else Some (cas_error next)))
            (if swapped then mkManager next (env m2) else m2)
            [EvLoad H; EvLog Debug "setting final" next None;
             EvSetFinal next None;
             EvLog Debug "setting DA included height" next None;
             EvSetMetadata key (PutUint64 next) None;
             EvCompareAndSwap H next swapped]
      end
  end.
Proof.
  intros H next. subst H next.
  unfold incrementDAIncludedHeight, bind, GetDAIncludedHeight, SetFinal,
    SetMetadata, call, logger_Debug, logger_Error, emit, ret, CompareAndSwap.
  cbn [outcome final trace app].
  destruct (setFinal (add64 (daIncludedHeight m) 1) m) as [[e |] m1];
    cbn [outcome final trace app]; [reflexivity |].
  destruct (setMeta key (PutUint64 (add64 (daIncludedHeight m) 1)) m1) as [[e |] m2];
    cbn [outcome final trace app]; [reflexivity |].
  destruct (daIncludedHeight m2 =? daIncludedHeight m);
    cbn [outcome final trace app negb]; reflexivity.
Qed.


(** C2. [incrementDAIncludedHeight] calls [SetFinal] on the next height,
    then writes the encoded next height to the store, then does the
    compare-and-swap on the cell, in this order; a step that returns an
    error is the last step of the call, whose error the call returns
    (for the compare-and-swap: the error built from the height). The
    bytes written decode to the next height. *)
Theorem incrementDAIncludedHeight_order (m : Manager Env) :
  let H := daIncludedHeight m in
  let next := add64 H 1 in
  let r := increment m in
  Uint64 (PutUint64 next) = next
  /\ ((exists e m1,
         setFinal next m = (Some e, m1)
         /\ commit_steps (trace r) = [EvSetFinal next (Some e)]
         /\ outcome r = Returns (Some e)
         /\ final r = m1)
      \/ (exists e m1 m2,
            setFinal next m = (None, m1)
            /\ setMeta key (PutUint64 next) m1 = (Some e, m2)
            /\ commit_steps (trace r) =
                 [EvSetFinal next None;
                  EvSetMetadata key (PutUint64 next) (Some e)]
            /\ outcome r = Returns (Some e)
            /\ final r = m2)
      \/ (exists m1 m2 swapped,
            setFinal next m = (None, m1)
            /\ setMeta key (PutUint64 next) m1 = (None, m2)
            /\ swapped = (daIncludedHeight m2 =? H)
            /\ commit_steps (trace r) =
                 [EvSetFinal next None;
                  EvSetMetadata key (PutUint64 next) None;
                  EvCompareAndSwap H next swapped]
            /\ outcome r = Returns (if swapped then None else Some (cas_error next))
            /\ final r = (if swapped then mkManager next (env m2) else m2))).
Proof.
  intros H next r. split.
  - apply Uint64_PutUint64, add64_range.
  - subst r. pose proof (increment_unfold m) as E. cbv zeta in E.
    fold H in E. fold next in E. rewrite E. clear E.
    destruct (setFinal next m) as [[e |] m1] eqn:E1.
    + left. exists e, m1. repeat split.
    + destruct (setMeta key (PutUint64 next) m1) as [[e |] m2] eqn:E2.
      * right; left. exists e, m1, m2. repeat split; assumption.
      * right; right. exists m1, m2, (daIncludedHeight m2 =? H).
        repeat split; assumption.
Qed.

(** C3. When [SetFinal] accepted the next height and the store write for
    it fails, [incrementDAIncludedHeight] returns the store's error
    without reaching the compare-and-swap: it leaves the state the store
    call left, and the cell, which nobody else wrote meanwhile, still
    holds the height read at the start. *)
Theorem store_failure_keeps_height (m m1 m2 : Manager Env) (e : error) :
  let H := daIncludedHeight m in
  let next := add64 H 1 in
  setFinal next m = (None, m1) ->
  setMeta key (PutUint64 next) m1 = (Some e, m2) ->
  daIncludedHeight m2 = H ->
  let r := increment m in
  outcome r = Returns (Some e)
  /\ final r = m2
  /\ daIncludedHeight (final r) = H
  /\ filter is_cas (trace r) = [].
Proof.
  intros H next E1 E2 Hcell r. subst r.
  pose proof (increment_unfold m) as E. cbv zeta in E.
  fold H in E. fold next in E. rewrite E, E1, E2.
  cbn. auto.
Qed.


(** ** The drain and the loop, one step at a time *)

Lemma drain_unfold (fuel : nat) (cur : Z) (m : Manager Env) :
  drain_ (S fuel) cur m =
  let next := add64 cur 1 in
  let '((b, oe), m0) := isDA next m in
  match oe with
  | Some err =>
      mkRes (Returns tt) m0
        [EvIsDAIncluded next b (Some err);
         EvLog Debug "no more blocks to check at this time" next (Some err)]
  | None =>
      if b
      then
        let r := increment m0 in
        match outcome r with
        | Returns (Some e) =>
            mkRes (Panics (increment_panic e)) (final r)
              (EvIsDAIncluded next true None :: trace r)
        | Returns None =>
            let r' := drain_ fuel next (final r) in
            mkRes (outcome r') (final r')
              (EvIsDAIncluded next true None :: trace r ++ trace r')
        | Panics e =>
            mkRes (Panics e) (final r) (EvIsDAIncluded next true None :: trace r)
        | OutOfFuel =>
            mkRes OutOfFuel (final r) (EvIsDAIncluded next true None :: trace r)
        end
      else mkRes (Returns tt) m0 [EvIsDAIncluded next false None]
  end.
Proof.
  cbn [drain]. rewrite bind_unfold. unfold IsDAIncluded, call.
  destruct (isDA (add64 cur 1) m) as [[b [err |]] m0];
    cbn [outcome final trace fst snd app].
  - reflexivity.
  - destruct b; [| reflexivity].
    rewrite bind_unfold.
    destruct (outcome (increment m0)) as [[e |] | e |]; try reflexivity.
    unfold panic. cbn [outcome final trace app].
    rewrite app_nil_r. reflexivity.
Qed.

Lemma pass_unfold (fuel : nat) (m : Manager Env) :
  pass_ fuel m =
  let r := drain_ fuel (daIncludedHeight m) m in
  mkRes (outcome r) (final r) (EvLoad (daIncludedHeight m) :: trace r).
Proof. reflexivity. Qed.

Lemma loop_trigger (fuel : nat) (rest : list Wake) (m : Manager Env) :
  loop_ fuel (DaIncluderCh :: rest) m =
  let r := pass_ fuel m in
  match outcome r with
  | Returns _ =>
      let r' := loop_ fuel rest (final r) in
      mkRes (outcome r') (final r') (trace r ++ trace r')
  | Panics e => mkRes (Panics e) (final r) (trace r)
  | OutOfFuel => mkRes OutOfFuel (final r) (trace r)
  end.
Proof. reflexivity. Qed.


(** ** Properties of every event of a run *)

Section TraceInvariant.
Variable P : Event -> Prop.
Hypothesis P_increment : forall m, Forall P (trace (increment m)).
Hypothesis P_oracle : forall h b e, P (EvIsDAIncluded h b e).
Hypothesis P_load : forall v, P (EvLoad v).
Hypothesis P_log : forall l msg h e, P (EvLog l msg h e).

Lemma drain_Forall (fuel : nat) :
  forall cur m, Forall P (trace (drain_ fuel cur m)).
Proof.
  induction fuel as [| fuel IH]; intros cur m.
  - constructor.
  - rewrite drain_unfold. cbv zeta.
    destruct (isDA (add64 cur 1) m) as [[[|] [err |]] m0];
      try (cbn [trace]; repeat constructor; auto; fail).
    pose proof (P_increment m0) as Hi.
    destruct (outcome (increment m0)) as [[e |] | e |]; cbn [trace];
      constructor; auto.
    apply Forall_app. split; [exact Hi | apply IH].
Qed.

Lemma loop_Forall (fuel : nat) (wakes : list Wake) :
  forall m, Forall P (trace (loop_ fuel wakes m)).
Proof.
  induction wakes as [| [|] rest IH]; intros m.
  - constructor.
  - constructor.
  - rewrite loop_trigger, pass_unfold. cbv zeta. cbn [outcome final trace].
    pose proof (drain_Forall fuel (daIncludedHeight m) m) as Hd.
    destruct (outcome (drain_ fuel (daIncludedHeight m) m)); cbn [trace].
    + constructor; [apply P_load |]. apply Forall_app. split; [exact Hd | apply IH].
    + constructor; [apply P_load | exact Hd].
    + constructor; [apply P_load | exact Hd].
Qed.
End TraceInvariant.

Lemma increment_writes_increment (m : Manager Env) :
  Forall write_is_increment (trace (increment m)).
Proof.
  pose proof (increment_unfold m) as E. cbv zeta in E. rewrite E. clear E.
  destruct (setFinal _ m) as [[e |] m1]; [repeat constructor |].
  destruct (setMeta _ _ m1) as [[e |] m2]; [repeat constructor |].
  cbn [trace]. repeat constructor.
  destruct (daIncludedHeight m2 =? daIncludedHeight m); cbn; [| exact I].
  split; [reflexivity |]. intros Hlt.
  pose proof (add64_range (daIncludedHeight m) 1) as Hr.
  destruct (Z_lt_le_dec (daIncludedHeight m) 0) as [Hneg | Hpos]; [lia |].
  rewrite add64_small by (unfold MaxUint64 in *; lia). lia.
Qed.



(** ** The cell over a run, when the loop is its only writer *)

Lemma swaps_app (a b : list Event) : swaps (a ++ b) = (swaps a + swaps b)%nat.
Proof. unfold swaps. rewrite filter_app, length_app. reflexivity. Qed.

Lemma swaps_skip (ev : Event) (tr : list Event) :
  is_swap ev = false -> swaps (ev :: tr) = swaps tr.
Proof. intros H. unfold swaps. cbn [filter]. rewrite H. reflexivity. Qed.

Lemma mod64_small (v : Z) : is_uint64 v -> (v + Z.of_nat 0) mod 2 ^ 64 = v.
Proof.
  unfold is_uint64, MaxUint64. intros H.
  rewrite Z.add_0_r. apply Z.mod_small. lia.
Qed.

Lemma mod64_is_uint64 (v : Z) : is_uint64 (v mod 2 ^ 64).
Proof.
  unfold is_uint64, MaxUint64.
  pose proof (Z.mod_pos_bound v (2 ^ 64) ltac:(lia)). lia.
Qed.

Lemma mod64_chain (a : Z) (n1 n2 : nat) :
  ((a + Z.of_nat n1) mod 2 ^ 64 + Z.of_nat n2) mod 2 ^ 64
  = (a + Z.of_nat (n1 + n2)) mod 2 ^ 64.
Proof.
  rewrite Zplus_mod_idemp_l. f_equal. lia.
Qed.

Section SingleWriter.
Hypothesis Hsw : single_writer isDA setFinal setMeta.

Lemma increment_advances (m : Manager Env) :
  is_uint64 (daIncludedHeight m) ->
  daIncludedHeight (final (increment m))
  = (daIncludedHeight m + Z.of_nat (swaps (trace (increment m)))) mod 2 ^ 64.
Proof.
  intros Hu. destruct Hsw as (_ & Hsf & Hsm).
  pose proof (increment_unfold m) as E. cbv zeta in E. rewrite E. clear E.
  pose proof (Hsf (add64 (daIncludedHeight m) 1) m) as H1.
  destruct (setFinal _ m) as [[e |] m1]; cbn [snd] in H1.
  - cbn [final trace]. rewrite H1. symmetry. apply (mod64_small Hu).
  - pose proof (Hsm key (PutUint64 (add64 (daIncludedHeight m) 1)) m1) as H2.
    destruct (setMeta _ _ m1) as [[e |] m2]; cbn [snd] in H2.
    + cbn [final trace]. rewrite H2, H1. symmetry. apply (mod64_small Hu).
    + replace (daIncludedHeight m2 =? daIncludedHeight m) with true
        by (symmetry; apply Z.eqb_eq; congruence).
      reflexivity.
Qed.

Lemma drain_advances (fuel : nat) :
  forall cur m,
    is_uint64 (daIncludedHeight m) ->
    daIncludedHeight (final (drain_ fuel cur m))
    = (daIncludedHeight m + Z.of_nat (swaps (trace (drain_ fuel cur m)))) mod 2 ^ 64.
Proof.
  induction fuel as [| fuel IH]; intros cur m Hu.
  - symmetry. apply (mod64_small Hu).
  - rewrite drain_unfold. cbv zeta.
    destruct Hsw as (Ho & _ & _).
    pose proof (Ho (add64 cur 1) m) as H0.
    destruct (isDA (add64 cur 1) m) as [[[|] [err |]] m0]; cbn [snd] in H0;
      try (cbn [final trace]; rewrite H0; symmetry; apply (mod64_small Hu)).
    rewrite <- H0 in Hu |- *.
    pose proof (@increment_advances m0 Hu) as Hi.
    destruct (outcome (increment m0)) as [[e |] | e |]; cbn [final trace];
      rewrite ?swaps_skip by reflexivity; try exact Hi.
    rewrite swaps_app, IH, Hi by (rewrite Hi; apply mod64_is_uint64).
    apply mod64_chain.
Qed.

Lemma loop_advances (fuel : nat) (wakes : list Wake) :
  forall m,
    is_uint64 (daIncludedHeight m) ->
    daIncludedHeight (final (loop_ fuel wakes m))
    = (daIncludedHeight m + Z.of_nat (swaps (trace (loop_ fuel wakes m)))) mod 2 ^ 64.
Proof.
  induction wakes as [| [|] rest IH]; intros m Hu;
    try (symmetry; apply (mod64_small Hu)).
  rewrite loop_trigger, pass_unfold. cbv zeta. cbn [outcome final trace].
  pose proof (@drain_advances fuel (daIncludedHeight m) m Hu) as Hd.
  destruct (outcome (drain_ fuel (daIncludedHeight m) m)); cbn [final trace];
    rewrite ?swaps_skip by reflexivity; try exact Hd.
  rewrite swaps_app, IH, Hd by (rewrite Hd; apply mod64_is_uint64).
  apply mod64_chain.
Qed.
End SingleWriter.

(** C4, as the code has it. Every write of the cell by a run of the loop
    replaces a height by that height plus one on [uint64]: an increase
    unless the height was the maximum, where it wraps to 0. With the loop
    as the only writer the cell ends at its first value plus the number
    of writes, modulo 2^64, so it has not decreased when that sum fits. *)
Theorem height_steps_up_by_one (fuel : nat) (wakes : list Wake) (m : Manager Env) :
  let r := loop_ fuel wakes m in
  Forall write_is_increment (trace r)
  /\ (single_writer isDA setFinal setMeta ->
      is_uint64 (daIncludedHeight m) ->
      daIncludedHeight (final r)
      = (daIncludedHeight m + Z.of_nat (swaps (trace r))) mod 2 ^ 64
      /\ (daIncludedHeight m + Z.of_nat (swaps (trace r)) <= MaxUint64 ->
          daIncludedHeight m <= daIncludedHeight (final r))).
Proof.
  intros r. split.
  - apply loop_Forall; try (intros; exact I).
    apply increment_writes_increment.
  - intros Hsw Hu. pose proof (@loop_advances Hsw fuel wakes m Hu) as Ha.
    fold r in Ha. split; [exact Ha |].
    intros Hfit. rewrite Ha.
    unfold is_uint64, MaxUint64 in *. rewrite Z.mod_small; lia.
Qed.

(** ** A drain over a confirmed prefix *)









End ManagerFacts.

(** ** [Retry] *)

Section RetryFacts.
Variable World : Type.
Variable sleep : Z -> World -> World.
Variable d : Z.
Variable fn : Func World.

Local Notation "'attempt_'" := (attempt sleep d fn).
Local Notation "'after_'" := (state_after sleep d fn).
Local Notation "'rounds_'" := (rounds sleep d fn).

Lemma invoke_unfold (w : World) :
  invoke fn w = mkRes (fst (fn w)) (snd (fn w)) [EvFn (fst (fn w))].
Proof. unfold invoke. destruct (fn w). reflexivity. Qed.

Lemma rounds_unfold (n : nat) (w : World) :
  rounds_ (S n) w =
  match fst (fn w) with
  | Returns (Some _) =>
      let r := rounds_ n (sleep d (snd (fn w))) in
      mkRes (outcome r) (final r) (EvFn (fst (fn w)) :: EvSleep d :: trace r)
  | o => mkRes o (snd (fn w)) [EvFn o]
  end.
Proof.
  cbn [rounds]. rewrite bind_unfold, invoke_unfold. cbn [outcome final trace].
  destruct (fst (fn w)) as [[e |] | e |]; try reflexivity.
Qed.

(** Below the overflow of [tries - 1] the loop of [Retry], entered with
    [i], does [tries - i] rounds before the trailing call. *)
Lemma Retry_from_rounds (n : nat) :
  forall (fuel : nat) (i tries : Z) (w : World),
    1 <= i -> tries <= MaxInt -> tries - i = Z.of_nat n -> (n < fuel)%nat ->
    Retry_from sleep fuel i tries d fn w = rounds_ n w.
Proof.
  induction n as [| n IH]; intros fuel i tries w Hi Ht Hn Hf;
    (destruct fuel as [| fuel]; [lia |]); cbn [Retry_from];
    rewrite (@int_wrap_small (tries - 1)) by (unfold MinInt, MaxInt in *; lia).
  - replace (i <=? tries - 1) with false by (symmetry; apply Z.leb_gt; lia).
    reflexivity.
  - replace (i <=? tries - 1) with true by (symmetry; apply Z.leb_le; lia).
    rewrite rounds_unfold, bind_unfold, invoke_unfold. cbn [outcome final trace].
    destruct (fst (fn w)) as [[e |] | e |]; try reflexivity.
    rewrite bind_unfold. cbn [time_Sleep outcome final trace app].
    rewrite (@int_wrap_small (i + 1)) by (unfold MinInt, MaxInt in *; lia).
    rewrite IH by lia. reflexivity.
Qed.

(** With [tries - 1] below the first index the loop body never runs. *)
Lemma Retry_from_once (fuel : nat) (tries : Z) (w : World) :
  MinInt < tries <= 1 ->
  Retry_from sleep (S fuel) 1 tries d fn w = invoke fn w.
Proof.
  intros Ht. cbn [Retry_from].
  rewrite int_wrap_small by (unfold MinInt, MaxInt in *; lia).
  replace (1 <=? tries - 1) with false by (symmetry; apply Z.leb_gt; lia).
  reflexivity.
Qed.

Lemma state_before_shift (k : nat) (w : World) :
  state_before sleep d fn (S k) w
  = state_before sleep d fn k (sleep d (snd (fn w))).
Proof.
  induction k as [| k IH]; [reflexivity |].
  cbn [state_before] in *. rewrite IH. reflexivity.
Qed.

Lemma attempt_shift (k : nat) (w : World) :
  attempt_ (S k) w = attempt_ k (sleep d (snd (fn w))).
Proof. unfold attempt. rewrite state_before_shift. reflexivity. Qed.

Lemma after_shift (k : nat) (w : World) :
  after_ (S k) w = after_ k (sleep d (snd (fn w))).
Proof. unfold state_after. rewrite state_before_shift. reflexivity. Qed.

(** What [n] rounds and the trailing call do, in terms of the invocations. *)
Lemma rounds_spec (n : nat) :
  forall w : World,
    let r := rounds_ n w in
    (invocations (trace r) <= S n)%nat
    /\ (forall j : nat,
          (j <= n)%nat ->
          (forall i : nat, (i < j)%nat -> failed (attempt_ i w)) ->
          attempt_ j w = Returns None ->
          outcome r = Returns None
          /\ invocations (trace r) = S j
          /\ final r = after_ j w)
    /\ ((forall i : nat, (i <= n)%nat -> failed (attempt_ i w)) ->
        outcome r = attempt_ n w
        /\ invocations (trace r) = S n
        /\ final r = after_ n w).
Proof.
  induction n as [| n IH]; intros w r; subst r.
  - cbn [rounds]. rewrite invoke_unfold. cbn [outcome final trace invocations].
    split; [lia |]. split.
    + intros j Hj _ Hnil. replace j with O in * by lia.
      unfold attempt, state_after in *. cbn [state_before] in *. auto.
    + intros _. unfold attempt, state_after. cbn [state_before]. auto.
  - rewrite rounds_unfold.
    destruct (IH (sleep d (snd (fn w)))) as (Hle & Hfirst & Hall). clear IH.
    assert (E0 : attempt_ 0 w = fst (fn w)) by reflexivity.
    destruct (fst (fn w)) as [[e |] | e |] eqn:E; cbv zeta;
      cbn [outcome final trace invocations].
    + split; [lia |]. split.
      * intros [| j] Hj Hbefore Hnil; [congruence |].
        rewrite attempt_shift in Hnil. rewrite after_shift.
        destruct (Hfirst j) as (H1 & H2 & H3); try lia; auto.
        intros i Hi. rewrite <- attempt_shift. apply Hbefore. lia.
      * intros Hfail. rewrite attempt_shift, after_shift.
        destruct Hall as (H1 & H2 & H3); auto.
        intros i Hi. rewrite <- attempt_shift. apply Hfail. lia.
    + split; [lia |]. split.
      * intros [| j] Hj Hbefore Hnil.
        -- unfold state_after. cbn [state_before]. auto.
        -- destruct (Hbefore O ltac:(lia)) as [e He]. congruence.
      * intros Hfail. destruct (Hfail O ltac:(lia)) as [e He]. congruence.
    + split; [lia |]. split.
      * intros [| j] Hj Hbefore Hnil; [congruence |].
        destruct (Hbefore O ltac:(lia)) as [e' He]. congruence.
      * intros Hfail. destruct (Hfail O ltac:(lia)) as [e' He]. congruence.
    + split; [lia |]. split.
      * intros [| j] Hj Hbefore Hnil; [congruence |].
        destruct (Hbefore O ltac:(lia)) as [e' He]. congruence.
      * intros Hfail. destruct (Hfail O ltac:(lia)) as [e' He]. congruence.
Qed.

(** [Retry] with at least one try and fuel for each of them. *)
Lemma Retry_rounds (fuel : nat) (tries : Z) (w : World) :
  1 <= tries <= MaxInt -> (Z.to_nat tries <= fuel)%nat ->
  Retry sleep fuel tries d fn w = rounds_ (Z.to_nat tries - 1) w.
Proof.
  intros Ht Hf. unfold Retry. apply Retry_from_rounds; lia.
Qed.

End RetryFacts.

(** C7. For [tries >= 1] and fuel for that many tries, [Retry] invokes
    [fn] at most [tries] times; when invocation [j + 1] is the first that
    returns nil, [Retry] returns nil right after it, having invoked [fn]
    [j + 1] times; and when all [tries] invocations fail, [Retry] returns
    what the last of them returned, having invoked [fn] [tries] times. *)
Theorem Retry_attempts
  (World : Type) (sleep : Z -> World -> World) (fuel : nat) (tries d : Z)
  (fn : Func World) (w : World) :
  1 <= tries <= MaxInt ->
  (Z.to_nat tries <= fuel)%nat ->
  let r := Retry sleep fuel tries d fn w in
  let n := Z.to_nat tries in
  (invocations (trace r) <= n)%nat
  /\ (forall j : nat,
        (j < n)%nat ->
        (forall i : nat, (i < j)%nat -> failed (attempt sleep d fn i w)) ->
        attempt sleep d fn j w = Returns None ->
        outcome r = Returns None
        /\ invocations (trace r) = S j
        /\ final r = state_after sleep d fn j w)
  /\ ((forall i : nat, (i < n)%nat -> failed (attempt sleep d fn i w)) ->
      outcome r = attempt sleep d fn (n - 1) w
      /\ failed (outcome r)
      /\ invocations (trace r) = n).
Proof.
  intros Ht Hf r n. subst r.
  rewrite Retry_rounds by assumption. fold n.
  assert (Hn : S (n - 1) = n) by (subst n; lia).
  destruct (rounds_spec sleep d fn (n - 1) w) as (Hle & Hfirst & Hall).
  rewrite Hn in *.
  split; [exact Hle |]. split.
  - intros j Hj Hbefore Hnil. apply Hfirst; auto. lia.
  - intros Hfail.
    destruct Hall as (H1 & H2 & _).
    + intros i Hi. apply Hfail. lia.
    + split; [exact H1 |]. split; [| exact H2].
      rewrite H1. apply Hfail. lia.
Qed.

(** C9, as the code has it. For [tries <= 1] above the least [int],
    [Retry] invokes [fn] exactly once, in its trailing call, and returns
    what that invocation returned. *)
Theorem Retry_single_invocation
  (World : Type) (sleep : Z -> World -> World) (fuel : nat) (tries d : Z)
  (fn : Func World) (w : World) :
  MinInt < tries <= 1 ->
  let r := Retry sleep (S fuel) tries d fn w in
  trace r = [EvFn (fst (fn w))]
  /\ invocations (trace r) = 1%nat
  /\ outcome r = fst (fn w)
  /\ final r = snd (fn w).
Proof.
  intros Ht r. subst r. unfold Retry.
  rewrite Retry_from_once by assumption.
  rewrite invoke_unfold. repeat split.
Qed.

(** ** The height views *)

(** C8. On a node that lacks the requested view, and on a source that is
    none of [Header], [Block], [Store], [getNodeHeight] returns height 0
    with an error. *)
Theorem getNodeHeight_unsupported
  (World : Type) (node : Node World) (source : Source) (w : World) :
  supports node source = false ->
  exists e : error, getNodeHeight node source w = Returns (0, Some e).
Proof.
  unfold supports, getNodeHeight. intros Hs.
  destruct node as [p | p | |]; cbn [as_FullNode as_LightNode] in *.
  - apply orb_false_elim in Hs as [Hs Hst].
    apply orb_false_elim in Hs as [Hh Hb].
    rewrite Hh, Hb, Hst. eexists; reflexivity.
  - rewrite Hs.
    destruct (source =? Block); [eexists; reflexivity |].
    destruct (source =? Store); eexists; reflexivity.
  - destruct (source =? Header); [eexists; reflexivity |].
    destruct (source =? Block); [eexists; reflexivity |].
    destruct (source =? Store); eexists; reflexivity.
  - destruct (source =? Header); [eexists; reflexivity |].
    destruct (source =? Block); [eexists; reflexivity |].
    destruct (source =? Store); eexists; reflexivity.
Qed.

(** ** Waiting for a DA-included height *)

(** An attempt on a full node succeeds exactly when the height it reads is
    not 0 and reaches the target. *)
Lemma atLeastNDAIncludedHeight_nil
  (World : Type) (fnode : FullNode World) (n : Z) (w : World) :
  fst (atLeastNDAIncludedHeight (PtrFullNode (Some fnode)) n w) = Returns None
  <-> fn_GetDAIncludedHeight fnode w <> 0 /\ n <= fn_GetDAIncludedHeight fnode w.
Proof.
  unfold atLeastNDAIncludedHeight. cbn [as_FullNode deref fst].
  destruct (Z.eqb_spec (fn_GetDAIncludedHeight fnode w) 0) as [E | E].
  - split; [discriminate | intros [H _]; contradiction].
  - destruct (Z.leb_spec n (fn_GetDAIncludedHeight fnode w)) as [L | L].
    + split; auto.
    + split; [discriminate | intros [_ H]; lia].
Qed.

(** C10. An attempt of [waitForAtLeastNDAIncludedHeight] on a full node
    succeeds exactly when the height read is not 0 and is at least the
    target; at height 0 it fails whatever the target. So with target 0 and
    the height 0 for good the helper invokes its attempt 300 times and
    returns the error of waiting for DA inclusion. *)
Theorem waitForAtLeastNDAIncludedHeight_zero_height
  (World : Type) (sleep : Z -> World -> World) (fnode : FullNode World) :
  (forall (n : Z) (w : World),
      (fst (atLeastNDAIncludedHeight (PtrFullNode (Some fnode)) n w) = Returns None
       <-> fn_GetDAIncludedHeight fnode w <> 0
           /\ n <= fn_GetDAIncludedHeight fnode w)
      /\ (fn_GetDAIncludedHeight fnode w = 0 ->
          fst (atLeastNDAIncludedHeight (PtrFullNode (Some fnode)) n w)
          = Returns (Some (fmt_Errorf "waiting for DA inclusion" []))))
  /\ ((forall w : World, fn_GetDAIncludedHeight fnode w = 0) ->
      forall (fuel : nat) (w : World),
        (300 <= fuel)%nat ->
        let r := waitForAtLeastNDAIncludedHeight sleep fuel (PtrFullNode (Some fnode)) 0 w in
        outcome r = Returns (Some (fmt_Errorf "waiting for DA inclusion" []))
        /\ invocations (trace r) = 300%nat).
Proof.
  assert (Hzero : forall n w, fn_GetDAIncludedHeight fnode w = 0 ->
            fst (atLeastNDAIncludedHeight (PtrFullNode (Some fnode)) n w)
            = Returns (Some (fmt_Errorf "waiting for DA inclusion" []))).
  { intros n w E. unfold atLeastNDAIncludedHeight.
    cbn [as_FullNode deref fst]. rewrite E. reflexivity. }
  split.
  - intros n w. split; [apply atLeastNDAIncludedHeight_nil | apply Hzero].
  - intros Hperm fuel w Hf r. subst r.
    unfold waitForAtLeastNDAIncludedHeight.
    rewrite Retry_rounds by (unfold MaxInt; lia).
    change (Z.to_nat 300 - 1)%nat with 299%nat.
    set (f := atLeastNDAIncludedHeight (PtrFullNode (Some fnode)) 0).
    destruct (rounds_spec sleep (100 * Millisecond) f 299 w) as (_ & _ & Hall).
    destruct Hall as (H1 & H2 & _).
    + intros i _. eexists. unfold attempt. apply Hzero, Hperm.
    + split; [| exact H2]. rewrite H1. unfold attempt. apply Hzero, Hperm.
Qed.

(** * Further properties of the code *)

(** ** The loop: the durable record, the finality calls *)

Lemma last_stored_app (a b : list Event) :
  forall acc, last_stored (a ++ b) acc = last_stored b (last_stored a acc).
Proof.
  induction a as [| ev a IH]; intros acc; [reflexivity |].
  destruct ev as [| | | k v [e |] | |]; cbn [app last_stored]; apply IH.
Qed.

Lemma final_calls_app (a b : list Event) :
  final_calls (a ++ b) = final_calls a ++ final_calls b.
Proof.
  induction a as [| ev a IH]; [reflexivity |].
  destruct ev; cbn [app final_calls]; rewrite IH; reflexivity.
Qed.

Lemma consecutive_app (a b : nat) :
  forall H,
    consecutive H (a + b)
    = consecutive H a ++ consecutive (Nat.iter a next_height H) b.
Proof.
  induction a as [| a IH]; intros H; [reflexivity |].
  cbn [Nat.add consecutive app]. rewrite IH.
  rewrite <- Nat.iter_succ_r. reflexivity.
Qed.

Section LoopFacts.
Variable Env : Type.
Variable key : string.
Variable isDA : Z -> Manager Env -> (bool * option error) * Manager Env.
Variable setFinal : Z -> Manager Env -> option error * Manager Env.
Variable setMeta : string -> list Byte.byte -> Manager Env -> option error * Manager Env.
Hypothesis Hsw : single_writer isDA setFinal setMeta.

Local Notation "'increment'" := (incrementDAIncludedHeight key setFinal setMeta).
Local Notation "'drain_'" := (drain key isDA setFinal setMeta).
Local Notation "'pass_'" := (drainPass key isDA setFinal setMeta).
Local Notation "'loop_'" := (DAIncluderLoop key isDA setFinal setMeta).

(** Every way a call of [incrementDAIncludedHeight] can go when nobody
    else writes the cell. *)
Lemma increment_cases (m : Manager Env) :
  let H := daIncludedHeight m in
  let r := increment m in
  (exists e,
      outcome r = Returns (Some e)
      /\ daIncludedHeight (final r) = H
      /\ swaps (trace r) = O
      /\ final_calls (trace r) = [next_height H]
      /\ commit_steps (trace r) <> []
      /\ forall acc, last_stored (trace r) acc = acc)
  \/ (outcome r = Returns None
      /\ daIncludedHeight (final r) = next_height H
      /\ swaps (trace r) = 1%nat
      /\ final_calls (trace r) = [next_height H]
      /\ forall acc, last_stored (trace r) acc = Some (PutUint64 (next_height H))).
Proof.
  intros H r. subst H r. destruct Hsw as (_ & Hsf & Hsm).
  pose proof (increment_unfold key setFinal setMeta m) as E.
  cbv zeta in E. rewrite E. clear E. unfold next_height.
  pose proof (Hsf (add64 (daIncludedHeight m) 1) m) as H1.
  destruct (setFinal _ m) as [[e |] m1]; cbn [snd] in H1.
  - left. exists e. cbn. repeat split; auto; discriminate.
  - pose proof (Hsm key (PutUint64 (add64 (daIncludedHeight m) 1)) m1) as H2.
    destruct (setMeta _ _ m1) as [[e |] m2]; cbn [snd] in H2.
    + left. exists e. cbn. repeat split; try congruence; discriminate.
    + replace (daIncludedHeight m2 =? daIncludedHeight m) with true
        by (symmetry; apply Z.eqb_eq; congruence).
      right. cbn. repeat split.
Qed.

Lemma consecutive_snoc (c : Z) (n : nat) :
  consecutive c (S n) = consecutive c n ++ [next_height (Nat.iter n next_height c)].
Proof.
  replace (S n) with (n + 1)%nat by lia. rewrite consecutive_app. reflexivity.
Qed.

Lemma drain_invariant (c0 : Z) (fuel : nat) :
  forall cur m acc, run_invariant panicked c0 acc m (drain_ fuel cur m).
Proof.
  induction fuel as [| fuel IH]; intros cur m acc.
  - unfold run_invariant. cbn. repeat split; auto.
    intros [e He]. discriminate He.
  - rewrite drain_unfold. cbv zeta.
    destruct Hsw as (Ho & _ & _).
    pose proof (Ho (add64 cur 1) m) as H0.
    destruct (isDA (add64 cur 1) m) as [[[|] [err |]] m0]; cbn [snd] in H0;
      try (unfold run_invariant; cbn; rewrite H0; repeat split; auto;
           intros [e He]; discriminate He).
    destruct (increment_cases m0) as
      [(e & Hout & Hcell & Hsw0 & Hfc & _ & Hls) | (Hout & Hcell & Hsw1 & Hfc & Hls)];
      rewrite Hout.
    + unfold run_invariant. cbn [outcome final trace].
      rewrite swaps_skip by reflexivity. rewrite Hsw0.
      cbn [Nat.iter final_calls last_stored consecutive].
      rewrite Hcell, Hfc, Hls, H0. repeat split; auto.
      intros Hn. exfalso. apply Hn. eexists; reflexivity.
    + specialize (IH (add64 cur 1) (final (increment m0))
                     (Some (PutUint64 (next_height (daIncludedHeight m0))))).
      destruct IH as (Ic & Iok & Ifail & Irec).
      unfold run_invariant. cbn [outcome final trace].
      rewrite swaps_skip by reflexivity. rewrite swaps_app, Hsw1.
      cbn [final_calls last_stored]. rewrite final_calls_app, last_stored_app, Hfc, Hls.
      rewrite Hcell, H0 in *.
      change (1 + ?n)%nat with (S n).
      rewrite !Nat.iter_succ_r.
      repeat split.
      * exact Ic.
      * intros Hn. cbn [consecutive app]. rewrite Iok by exact Hn. reflexivity.
      * intros Hp. cbn [consecutive app]. rewrite Ifail by exact Hp. reflexivity.
      * intros _. apply Irec. cbn. apply Uint64_PutUint64, add64_range.
Qed.

Lemma loop_invariant (c0 : Z) (fuel : nat) (wakes : list Wake) :
  forall m acc, run_invariant panicked c0 acc m (loop_ fuel wakes m).
Proof.
  induction wakes as [| [|] rest IH]; intros m acc;
    try (unfold run_invariant; cbn; repeat split; auto;
         intros [e He]; discriminate He).
  rewrite loop_trigger, pass_unfold. cbv zeta. cbn [outcome final trace].
  destruct (drain_invariant c0 fuel (daIncludedHeight m) m acc) as (Dc & Dok & Dfail & Drec).
  destruct (outcome (drain_ fuel (daIncludedHeight m) m)) as [[] | e |] eqn:Eo.
  - specialize (IH (final (drain_ fuel (daIncludedHeight m) m))
                   (last_stored (trace (drain_ fuel (daIncludedHeight m) m)) acc)).
    destruct IH as (Ic & Iok & Ifail & Irec).
    unfold run_invariant. cbn [outcome final trace].
    rewrite <- app_comm_cons.
    rewrite swaps_skip by reflexivity. rewrite swaps_app.
    cbn [final_calls last_stored]. rewrite final_calls_app, last_stored_app.
    rewrite Dok by (intros [e He]; discriminate He).
    rewrite Dc in *.
    set (a := swaps (trace (drain_ fuel (daIncludedHeight m) m))) in *.
    set (b := swaps (trace (loop_ fuel rest _))) in *.
    repeat split.
    + rewrite Ic, (Nat.add_comm a b), Nat.iter_add. reflexivity.
    + intros Hn. rewrite Iok by exact Hn. symmetry. apply consecutive_app.
    + intros Hp. rewrite Ifail by exact Hp.
      rewrite plus_n_Sm. symmetry. apply consecutive_app.
    + intros Ha. apply Irec, Drec, Ha.
  - unfold run_invariant. cbn [outcome final trace].
    rewrite swaps_skip by reflexivity. cbn [final_calls last_stored].
    repeat split; try assumption.
    + intros Hn. exfalso. apply Hn. eexists; reflexivity.
    + intros _. apply Dfail. eexists; reflexivity.
  - unfold run_invariant. cbn [outcome final trace].
    rewrite swaps_skip by reflexivity. cbn [final_calls last_stored].
    repeat split; try assumption.
    + intros _. apply Dok. intros [e He]. discriminate He.
    + intros [e He]. discriminate He.
Qed.


(** X2. With the loop as the only writer, over any run the heights
    [SetFinal] is called with are the heights after the first one, each
    once and in order; the cell ends as many heights further as it was
    written; and [SetFinal] has been called for one height more than the
    cell has reached exactly when the run panicked. *)
Theorem finality_calls_consecutive (fuel : nat) (wakes : list Wake) (m : Manager Env) :
  let r := loop_ fuel wakes m in
  let n := swaps (trace r) in
  daIncludedHeight (final r) = Nat.iter n next_height (daIncludedHeight m)
  /\ ((forall e, outcome r <> Panics e) ->
      final_calls (trace r) = consecutive (daIncludedHeight m) n)
  /\ (forall e, outcome r = Panics e ->
                final_calls (trace r) = consecutive (daIncludedHeight m) (S n)).
Proof.
  intros r n. subst r n.
  destruct (loop_invariant 0 fuel wakes m None) as (Hc & Hok & Hfail & _).
  split; [exact Hc |]. split.
  - intros Hn. apply Hok. intros [e He]. exact (Hn e He).
  - intros e He. apply Hfail. exists e. exact He.
Qed.

(** A drain that returned stopped at a height the oracle did not confirm:
    the one after the height the cell ends with. *)
Lemma drain_stops (fuel : nat) :
  forall cur m,
    daIncludedHeight m = cur ->
    outcome (drain_ fuel cur m) = Returns tt ->
    exists m',
      fst (isDA (add64 (daIncludedHeight (final (drain_ fuel cur m))) 1) m')
      <> (true, None).
Proof.
  induction fuel as [| fuel IH]; intros cur m Hm; [discriminate |].
  rewrite drain_unfold. cbv zeta.
  destruct Hsw as (Ho & _ & _).
  pose proof (Ho (add64 cur 1) m) as H0.
  destruct (isDA (add64 cur 1) m) as [[b [err |]] m0] eqn:E; cbn [snd] in H0.
  - cbn [outcome final]. intros _. exists m. rewrite H0, Hm, E. cbn. congruence.
  - destruct b.
    + destruct (increment_cases m0) as
        [(e & Hout & _) | (Hout & Hcell & _)]; rewrite Hout; [discriminate |].
      cbn [outcome final]. apply IH.
      rewrite Hcell. unfold next_height. congruence.
    + cbn [outcome final]. intros _. exists m. rewrite H0, Hm, E. cbn. congruence.
Qed.

(** X3. With the loop as the only writer and an oracle whose answers do
    not change, a wake-up that follows a completed pass asks the oracle
    once, commits nothing and leaves the cell as it was. *)
Theorem second_trigger_commits_nothing (fuel fuel' : nat) (m : Manager Env) :
  stable_oracle isDA ->
  let r1 := loop_ fuel [DaIncluderCh] m in
  outcome r1 = Returns Idle ->
  let r2 := loop_ (S fuel') [DaIncluderCh] (final r1) in
  outcome r2 = Returns Idle
  /\ commit_steps (trace r2) = []
  /\ List.length (oracle_answers (trace r2)) = 1%nat
  /\ daIncludedHeight (final r2) = daIncludedHeight (final r1).
Proof.
  intros Hst r1 Hout1 r2. subst r2.
  assert (E1 : final r1 = final (drain_ fuel (daIncludedHeight m) m)
               /\ outcome (drain_ fuel (daIncludedHeight m) m) = Returns tt).
  { subst r1. rewrite loop_trigger, pass_unfold in Hout1 |- *. cbv zeta in *.
    cbn [outcome final trace] in *.
    destruct (outcome (drain_ fuel (daIncludedHeight m) m)) as [[] | e |];
      try discriminate. split; reflexivity. }
  destruct E1 as [Ef Ed]. rewrite Ef. clear Ef Hout1 r1.
  destruct (@drain_stops fuel (daIncludedHeight m) m eq_refl Ed) as [m' Hno].
  set (mf := final (drain_ fuel (daIncludedHeight m) m)) in *.
  rewrite loop_trigger, pass_unfold, drain_unfold. cbv zeta.
  destruct Hsw as (Ho & _ & _).
  pose proof (Ho (add64 (daIncludedHeight mf) 1) mf) as H0.
  rewrite (Hst _ m' mf) in Hno.
  destruct (isDA (add64 (daIncludedHeight mf) 1) mf) as [[b [err |]] m0];
    cbn [fst snd] in H0, Hno.
  - cbn. auto.
  - destruct b; [congruence |]. cbn. auto.
Qed.

(** A commit that is accepted goes through, at any height. *)
Lemma increment_accepted (m : Manager Env) :
  commits key setFinal setMeta (add64 (daIncludedHeight m) 1) ->
  outcome (increment m) = Returns None /\ swaps (trace (increment m)) = 1%nat.
Proof.
  intros (Cf & Cm). destruct Hsw as (_ & Hsf & Hsm).
  pose proof (increment_unfold key setFinal setMeta m) as E.
  cbv zeta in E. rewrite E. clear E.
  pose proof (Cf m) as F1.
  pose proof (Hsf (add64 (daIncludedHeight m) 1) m) as H1.
  destruct (setFinal _ m) as [e1 m1]. cbn [fst snd] in F1, H1. subst e1.
  pose proof (Cm m1) as F2.
  pose proof (Hsm key (PutUint64 (add64 (daIncludedHeight m) 1)) m1) as H2.
  destruct (setMeta _ _ m1) as [e2 m2]. cbn [fst snd] in F2, H2. subst e2.
  replace (daIncludedHeight m2 =? daIncludedHeight m) with true
    by (symmetry; apply Z.eqb_eq; congruence).
  split; reflexivity.
Qed.

Lemma drain_never_ends (fuel : nat) :
  (forall h, confirms isDA h) ->
  (forall h, commits key setFinal setMeta h) ->
  forall cur m,
    outcome (drain_ fuel cur m) = OutOfFuel
    /\ swaps (trace (drain_ fuel cur m)) = fuel.
Proof.
  intros Hyes Hacc.
  induction fuel as [| fuel IH]; intros cur m; [split; reflexivity |].
  rewrite drain_unfold. cbv zeta.
  pose proof (Hyes (add64 cur 1) m) as Hy.
  destruct (isDA (add64 cur 1) m) as [[b oe] m0]. cbn [fst] in Hy.
  injection Hy as -> ->.
  destruct (@increment_accepted m0 (Hacc _)) as [Hout Hs].
  rewrite Hout. cbn [outcome trace].
  destruct (IH (add64 cur 1) (final (increment m0))) as [Ho Hn].
  split; [exact Ho |].
  rewrite swaps_skip by reflexivity. rewrite swaps_app, Hs, Hn. reflexivity.
Qed.

(** X5. With the loop as the only writer, an oracle that confirms every
    height and an executor and store that accept every height, a drain
    pass never comes back: whatever the number of rounds allowed it is
    still running after them, having committed one height per round, and
    the wake-ups behind the trigger, a cancellation among them, are not
    served. *)
Theorem drain_pass_unbounded (fuel : nat) (rest : list Wake) (m : Manager Env) :
  (forall h, confirms isDA h) ->
  (forall h, commits key setFinal setMeta h) ->
  let r := loop_ fuel (DaIncluderCh :: rest) m in
  outcome r = OutOfFuel
  /\ swaps (trace r) = fuel
  /\ daIncludedHeight (final r) = Nat.iter fuel next_height (daIncludedHeight m).
Proof.
  intros Hyes Hacc r.
  destruct (loop_invariant 0 fuel (DaIncluderCh :: rest) m None) as (Hc & _).
  fold r in Hc.
  assert (E : outcome r = OutOfFuel /\ swaps (trace r) = fuel).
  { subst r. rewrite loop_trigger, pass_unfold. cbv zeta.
    cbn [outcome final trace].
    destruct (drain_never_ends fuel Hyes Hacc (daIncludedHeight m) m) as [Ho Hn].
    rewrite Ho. cbn [outcome trace].
    rewrite swaps_skip by reflexivity. auto. }
  destruct E as [Eo En]. rewrite En in Hc. auto.
Qed.

End LoopFacts.

(** ** Cancellation *)

(** X4. Once the [select] has received the cancellation the loop returns:
    the wake-ups after it are never served, and a run with a cancellation
    among its wake-ups does not end in the wait. *)
Theorem cancellation_ends_loop
  (Env : Type) (key : string)
  (isDA : Z -> Manager Env -> (bool * option error) * Manager Env)
  (setFinal : Z -> Manager Env -> option error * Manager Env)
  (setMeta : string -> list Byte.byte -> Manager Env -> option error * Manager Env)
  (fuel : nat) (before after : list Wake) (m : Manager Env) :
  DAIncluderLoop key isDA setFinal setMeta fuel (before ++ CtxDone :: after) m
  = DAIncluderLoop key isDA setFinal setMeta fuel (before ++ [CtxDone]) m
  /\ outcome (DAIncluderLoop key isDA setFinal setMeta fuel
                (before ++ CtxDone :: after) m) <> Returns Idle.
Proof.
  revert m. induction before as [| [|] rest IH]; intros m.
  - split; [reflexivity | discriminate].
  - split; [reflexivity | discriminate].
  - cbn [app]. rewrite !loop_trigger. cbv zeta.
    destruct (outcome (drainPass key isDA setFinal setMeta fuel m));
      try (split; [reflexivity | discriminate]).
    destruct (IH (final (drainPass key isDA setFinal setMeta fuel m))) as [E N].
    rewrite E. split; [reflexivity |]. cbn [outcome]. rewrite <- E. exact N.
Qed.

(** ** The durable form of a height *)

Lemma PutUint64_length (v : Z) : List.length (PutUint64 v) = 8%nat.
Proof. reflexivity. Qed.

(** X6. The record written for a height is 8 bytes that decode back to
    the height, so two heights with the same record are the same. *)
Theorem height_record_round_trip (v : Z) :
  is_uint64 v ->
  List.length (PutUint64 v) = 8%nat
  /\ Uint64 (PutUint64 v) = v
  /\ forall u, is_uint64 u -> PutUint64 u = PutUint64 v -> u = v.
Proof.
  intros Hv. split; [apply PutUint64_length |]. split.
  - apply Uint64_PutUint64. exact Hv.
  - intros u Hu E.
    rewrite <- (Uint64_PutUint64 Hu), <- (Uint64_PutUint64 Hv), E. reflexivity.
Qed.

(** ** [Retry]: what it sleeps, and whose result it returns *)

Lemma retry_trace_cons (d : Z) (e : error) (errs : list error)
      (last : Outcome (option error)) :
  retry_trace d (e :: errs) last
  = EvFn (Returns (Some e)) :: EvSleep d :: retry_trace d errs last.
Proof. reflexivity. Qed.

Lemma retry_trace_counts (d : Z) (errs : list error) (last : Outcome (option error)) :
  invocations (retry_trace d errs last) = S (List.length errs)
  /\ sleeps (retry_trace d errs last) = repeat d (List.length errs).
Proof.
  induction errs as [| e errs [IHi IHs]]; [split; reflexivity |].
  rewrite retry_trace_cons. cbn [invocations sleeps List.length repeat].
  rewrite IHi, IHs. split; reflexivity.
Qed.

Section RetryMore.
Variable World : Type.
Variable sleep : Z -> World -> World.
Variable d : Z.
Variable fn : Func World.

Lemma rounds_shape (n : nat) :
  forall w : World,
    let r := rounds sleep d fn n w in
    exists errs,
      trace r = retry_trace d errs (outcome r)
      /\ (List.length errs <= n)%nat
      /\ (failed (outcome r) -> List.length errs = n).
Proof.
  induction n as [| n IH]; intros w r; subst r.
  - cbn [rounds]. rewrite invoke_unfold. exists [].
    split; [reflexivity |]. split; [cbn; lia |]. intros _. reflexivity.
  - rewrite rounds_unfold.
    destruct (fst (fn w)) as [[e |] | e |] eqn:E; cbv zeta.
    + destruct (IH (sleep d (snd (fn w)))) as (errs & Ht & Hl & Hf).
      exists (e :: errs). cbn [outcome trace List.length].
      rewrite retry_trace_cons, Ht.
      split; [reflexivity |]. split; [lia |].
      intros H. rewrite Hf by exact H. reflexivity.
    + exists []. split; [reflexivity |]. split; [cbn; lia |].
      intros [e He]. discriminate He.
    + exists []. split; [reflexivity |]. split; [cbn; lia |].
      intros [e' He]. discriminate He.
    + exists []. split; [reflexivity |]. split; [cbn; lia |].
      intros [e He]. discriminate He.
Qed.

(** What [Retry] returns is what an invocation of [fn] returned, in the
    state that invocation left; this needs no bound on [tries]. *)
Lemma Retry_from_returns (fuel : nat) :
  forall (i tries : Z) (w : World) (x : option error),
    outcome (Retry_from sleep fuel i tries d fn w) = Returns x ->
    exists w0, fn w0 = (Returns x, final (Retry_from sleep fuel i tries d fn w)).
Proof.
  induction fuel as [| fuel IH]; intros i tries w x; [discriminate |].
  cbn [Retry_from].
  destruct (i <=? int_wrap (tries - 1)).
  - rewrite bind_unfold, invoke_unfold. cbn [outcome final trace].
    destruct (fn w) as [o w1] eqn:E. cbn [fst snd].
    destruct o as [[e |] | e |]; cbn [outcome final]; try discriminate.
    + rewrite bind_unfold. cbn [time_Sleep outcome final trace]. apply IH.
    + intros Hx. injection Hx as <-. exists w. exact E.
  - rewrite invoke_unfold. cbn [outcome final].
    intros Hx. exists w. destruct (fn w) as [o w1]. cbn [fst snd] in *.
    rewrite Hx. reflexivity.
Qed.

(** X7. For [tries >= 1] and fuel for that many tries, a run of [Retry]
    is: invocations that returned errors, each followed by one sleep of
    the given duration, then a last invocation whose result (or panic)
    is the result of [Retry]. So it sleeps once per failed invocation but
    the last, never after the last one, and fewer than [tries] times. *)
Theorem Retry_trace_shape (fuel : nat) (tries : Z) (w : World) :
  1 <= tries <= MaxInt ->
  (Z.to_nat tries <= fuel)%nat ->
  let r := Retry sleep fuel tries d fn w in
  exists errs,
    trace r = retry_trace d errs (outcome r)
    /\ (List.length errs < Z.to_nat tries)%nat
    /\ (failed (outcome r) -> List.length errs = (Z.to_nat tries - 1)%nat)
    /\ invocations (trace r) = S (List.length errs)
    /\ sleeps (trace r) = repeat d (List.length errs).
Proof.
  intros Ht Hf r. subst r. rewrite Retry_rounds by assumption.
  destruct (rounds_shape (Z.to_nat tries - 1) w) as (errs & Htr & Hl & Hfail).
  exists errs. rewrite Htr.
  destruct (retry_trace_counts d errs
              (outcome (rounds sleep d fn (Z.to_nat tries - 1) w))) as [Hi Hs].
  repeat split; try assumption. lia.
Qed.

End RetryMore.

(** ** The height views, on every node *)

Lemma getNodeHeight_unsupported_error {World} (node : Node World) (source : Source) :
  supports node source = false ->
  exists e : error, forall w, getNodeHeight node source w = Returns (0, Some e).
Proof.
  unfold supports, getNodeHeight. intros Hs.
  destruct node as [p | p | |]; cbn [as_FullNode as_LightNode] in *.
  - apply orb_false_elim in Hs as [Hs Hst].
    apply orb_false_elim in Hs as [Hh Hb].
    rewrite Hh, Hb, Hst. eexists; reflexivity.
  - rewrite Hs.
    destruct (source =? Block); [eexists; reflexivity |].
    destruct (source =? Store); eexists; reflexivity.
  - destruct (source =? Header); [eexists; reflexivity |].
    destruct (source =? Block); [eexists; reflexivity |].
    destruct (source =? Store); eexists; reflexivity.
  - destruct (source =? Header); [eexists; reflexivity |].
    destruct (source =? Block); [eexists; reflexivity |].
    destruct (source =? Store); eexists; reflexivity.
Qed.

(** [getNodeHeight] by cases: the view when the node has it, the panic of
    a nil pointer when the variant has it, an error with height 0
    otherwise. *)
Lemma getNodeHeight_cases {World} (node : Node World) (source : Source) (w : World) :
  (exists r, view node source w = Some r
             /\ supports node source = true
             /\ getNodeHeight node source w = Returns r)
  \/ (view node source w = None
      /\ supports node source = true
      /\ nil_pointer node
      /\ getNodeHeight node source w = Panics nil_dereference)
  \/ (view node source w = None
      /\ supports node source = false
      /\ exists e, getNodeHeight node source w = Returns (0, Some e)).
Proof.
  unfold view, supports, getNodeHeight, nil_pointer,
    getNodeHeightFromHeader, getNodeHeightFromBlock, getNodeHeightFromStore.
  destruct node as [[f |] | [l |] | |]; cbn [as_FullNode as_LightNode deref];
    destruct (source =? Header); cbn [orb];
    try (left; eexists; repeat split; fail);
    try (right; left; repeat split; auto; fail);
    try (right; right; repeat split; eexists; reflexivity);
    destruct (source =? Block); cbn [orb];
    try (left; eexists; repeat split; fail);
    try (right; left; repeat split; auto; fail);
    try (right; right; repeat split; eexists; reflexivity);
    destruct (source =? Store); cbn [orb];
    try (left; eexists; repeat split; fail);
    try (right; left; repeat split; auto; fail);
    try (right; right; repeat split; eexists; reflexivity).
Qed.

(** X14. [getNodeHeight] panics exactly on a nil pointer to a node whose
    variant has the requested view; the panic is the nil dereference. On
    a nil pointer to a variant without the view it returns the error. *)
Theorem getNodeHeight_panics_iff
  (World : Type) (node : Node World) (source : Source) (w : World) :
  ((exists e, getNodeHeight node source w = Panics e)
   <-> supports node source = true /\ nil_pointer node)
  /\ (forall e, getNodeHeight node source w = Panics e -> e = nil_dereference)
  /\ getNodeHeight node source w <> OutOfFuel.
Proof.
  destruct (getNodeHeight_cases node source w) as
    [(r & Hv & Hs & Hg) | [(Hv & Hs & Hn & Hg) | (Hv & Hs & e & Hg)]];
    rewrite Hg; (split; [split |]).
  - intros [e He]. discriminate He.
  - intros [_ [-> | ->]]; unfold view in Hv; discriminate Hv.
  - split; [intros e He; discriminate He | discriminate].
  - intros _. split; assumption.
  - intros _. eexists; reflexivity.
  - split; [| discriminate]. intros e He. injection He as <-. reflexivity.
  - intros [e' He]. discriminate He.
  - intros [Hs' _]. congruence.
  - split; [intros e' He; discriminate He | discriminate].
Qed.

(** X15. [getNodeHeight] returns a nil error only for a view the node has,
    and then the height is the one that view holds; and when it returns
    an error the height beside it is 0, unless the error is the one the
    store of a full node gave, which comes with the store's height. *)
Theorem getNodeHeight_results
  (World : Type) (node : Node World) (source : Source) (w : World) (h : Z) :
  (getNodeHeight node source w = Returns (h, None) ->
   supports node source = true /\ view node source w = Some (h, None))
  /\ (forall e,
        getNodeHeight node source w = Returns (h, Some e) ->
        h = 0
        \/ exists fn,
             node = PtrFullNode (Some fn)
             /\ source = Store
             /\ fn_GetStoreHeight fn w = (h, Some e)).
Proof.
  destruct (getNodeHeight_cases node source w) as
    [(r & Hv & Hs & Hg) | [(Hv & Hs & Hn & Hg) | (Hv & Hs & e0 & Hg)]];
    rewrite Hg; (split; [| intros e]); intros E; try discriminate E.
  - injection E as ->. auto.
  - injection E as ->. revert Hv. unfold view.
    destruct node as [[f |] | [l |] | |]; try discriminate.
    + destruct (Z.eqb_spec source Header); [intros Hv; discriminate Hv |].
      destruct (Z.eqb_spec source Block); [intros Hv; discriminate Hv |].
      destruct (Z.eqb_spec source Store); [| discriminate].
      intros Hv. injection Hv as Hv. right. exists f. auto.
    + destruct (source =? Header); intros Hv; discriminate Hv.
  - injection E as <- _. left. reflexivity.
Qed.

(** ** Waiting for a height *)

Section WaitFacts.
Variable World : Type.
Variable sleep : Z -> World -> World.

Lemma atLeastNBlocks_world (node : Node World) (n : Z) (source : Source) (w : World) :
  snd (atLeastNBlocks node n source w) = w.
Proof.
  unfold atLeastNBlocks.
  destruct (getNodeHeight node source w) as [[h [e |]] | e |]; try reflexivity.
  destruct (n <=? h); reflexivity.
Qed.

Lemma atLeastNBlocks_nil (node : Node World) (n : Z) (source : Source) (w : World) :
  fst (atLeastNBlocks node n source w) = Returns None
  <-> exists h, getNodeHeight node source w = Returns (h, None) /\ n <= h.
Proof.
  unfold atLeastNBlocks.
  destruct (getNodeHeight node source w) as [[h [e |]] | e |]; cbn [fst].
  - split; [discriminate | intros (h' & E & _); discriminate E].
  - destruct (Z.leb_spec n h) as [L | L]; cbn [fst].
    + split; [intros _; exists h; auto | reflexivity].
    + split; [discriminate | intros (h' & E & L'); injection E as <-; lia].
  - split; [discriminate | intros (h' & E & _); discriminate E].
  - split; [discriminate | intros (h' & E & _); discriminate E].
Qed.

Lemma atLeastNBlocks_failed (node : Node World) (n : Z) (source : Source) (w : World) :
  not_reached node source n w -> failed (fst (atLeastNBlocks node n source w)).
Proof.
  unfold not_reached, atLeastNBlocks, failed.
  destruct (getNodeHeight node source w) as [[h [e |]] | e |]; cbn [fst];
    try contradiction.
  - intros _. eexists; reflexivity.
  - intros L. destruct (Z.leb_spec n h); [lia |]. eexists; reflexivity.
Qed.

Lemma atLeastNDAIncludedHeight_world (node : Node World) (n : Z) (w : World) :
  snd (atLeastNDAIncludedHeight node n w) = w.
Proof.
  unfold atLeastNDAIncludedHeight. destruct (as_FullNode node); reflexivity.
Qed.

(** A closure that leaves the state alone is invoked in the states the
    sleeps make. *)
Lemma state_before_polls (d : Z) (fn : Func World) :
  (forall w, snd (fn w) = w) ->
  forall k w, state_before sleep d fn k w = Nat.iter k (sleep d) w.
Proof.
  intros Hfn. induction k as [| k IH]; intros w; [reflexivity |].
  cbn [state_before Nat.iter]. rewrite Hfn, IH. reflexivity.
Qed.

(** X8. When [waitForAtLeastNBlocks] returns nil, the view read in the
    state it leaves has no error and a height of at least [n]; this holds
    for whatever number of polls it took. *)
Theorem waitForAtLeastNBlocks_sound
  (fuel : nat) (node : Node World) (n : Z) (source : Source) (w : World) :
  let r := waitForAtLeastNBlocks sleep fuel node n source w in
  outcome r = Returns None ->
  exists h, getNodeHeight node source (final r) = Returns (h, None) /\ n <= h.
Proof.
  intros r Hnil. subst r. unfold waitForAtLeastNBlocks, Retry in *.
  destruct (Retry_from_returns sleep (100 * Millisecond)
              (atLeastNBlocks node n source) fuel 1 300 w Hnil) as [w0 E].
  pose proof (atLeastNBlocks_world node n source w0) as Hw.
  rewrite E in Hw. cbn [snd] in Hw. rewrite Hw.
  apply atLeastNBlocks_nil. rewrite E. reflexivity.
Qed.

(** X9. On a node that lacks the view, or with an invalid source,
    [waitForAtLeastNBlocks] does not fail at once: it polls 300 times,
    sleeping 100 ms after each poll but the last, and then returns the
    error of [getNodeHeight]. *)
Theorem waitForAtLeastNBlocks_unsupported
  (fuel : nat) (node : Node World) (n : Z) (source : Source) (w : World) :
  supports node source = false ->
  (300 <= fuel)%nat ->
  let r := waitForAtLeastNBlocks sleep fuel node n source w in
  exists e,
    getNodeHeight node source w = Returns (0, Some e)
    /\ outcome r = Returns (Some e)
    /\ invocations (trace r) = 300%nat
    /\ sleeps (trace r) = repeat (100 * Millisecond) 299.
Proof.
  intros Hs Hf r. subst r.
  destruct (getNodeHeight_unsupported_error node source Hs) as [e He].
  exists e. split; [apply He |].
  unfold waitForAtLeastNBlocks.
  rewrite Retry_rounds by (unfold MaxInt; lia).
  change (Z.to_nat 300 - 1)%nat with 299%nat.
  set (f := atLeastNBlocks node n source).
  assert (Hfail : forall w', fst (f w') = Returns (Some e)).
  { intros w'. unfold f, atLeastNBlocks. rewrite He. reflexivity. }
  destruct (rounds_spec sleep (100 * Millisecond) f 299 w) as (_ & _ & Hall).
  destruct Hall as (H1 & H2 & _).
  { intros i _. exists e. apply Hfail. }
  destruct (rounds_shape sleep (100 * Millisecond) f 299 w) as (errs & Htr & _ & Hlen).
  assert (Hout : outcome (rounds sleep (100 * Millisecond) f 299 w) = Returns (Some e)).
  { rewrite H1. apply Hfail. }
  split; [exact Hout |]. split; [exact H2 |].
  rewrite Htr.
  destruct (retry_trace_counts (100 * Millisecond) errs
              (outcome (rounds sleep (100 * Millisecond) f 299 w))) as [_ Hsl].
  rewrite Hsl, Hlen; [reflexivity |].
  rewrite Hout. eexists; reflexivity.
Qed.

(** X10. [waitForAtLeastNBlocks] returns nil at the first poll that reads
    a height of at least [n]: when the [j] polls before it (for [j] below
    300) missed the target, it has polled [j + 1] times and slept [j]
    times, and leaves the state of that poll. *)
Theorem waitForAtLeastNBlocks_reached
  (fuel j : nat) (node : Node World) (n h : Z) (source : Source) (w : World) :
  (300 <= fuel)%nat ->
  (j < 300)%nat ->
  (forall i, (i < j)%nat ->
             not_reached node source n (Nat.iter i (sleep (100 * Millisecond)) w)) ->
  getNodeHeight node source (Nat.iter j (sleep (100 * Millisecond)) w)
  = Returns (h, None) ->
  n <= h ->
  let r := waitForAtLeastNBlocks sleep fuel node n source w in
  outcome r = Returns None
  /\ invocations (trace r) = S j
  /\ final r = Nat.iter j (sleep (100 * Millisecond)) w.
Proof.
  intros Hf Hj Hbelow Hat Hle r. subst r.
  unfold waitForAtLeastNBlocks.
  rewrite Retry_rounds by (unfold MaxInt; lia).
  change (Z.to_nat 300 - 1)%nat with 299%nat.
  set (d := 100 * Millisecond) in *.
  set (f := atLeastNBlocks node n source).
  assert (Hpoll : forall k, state_before sleep d f k w = Nat.iter k (sleep d) w).
  { intros k. apply state_before_polls. intros w'. apply atLeastNBlocks_world. }
  destruct (rounds_spec sleep d f 299 w) as (_ & Hfirst & _).
  destruct (Hfirst j) as (H1 & H2 & H3).
  - lia.
  - intros i Hi. unfold attempt. rewrite Hpoll.
    apply atLeastNBlocks_failed, Hbelow, Hi.
  - unfold attempt. rewrite Hpoll. apply atLeastNBlocks_nil. exists h. auto.
  - split; [exact H1 |]. split; [exact H2 |].
    rewrite H3. unfold state_after. rewrite Hpoll. apply atLeastNBlocks_world.
Qed.


(** X12. When [waitForAtLeastNDAIncludedHeight] returns nil the node is a
    full node whose DA-included height, in the state left, is not 0 and
    is at least [n]. *)
Theorem waitForAtLeastNDAIncludedHeight_sound
  (fuel : nat) (node : Node World) (n : Z) (w : World) :
  let r := waitForAtLeastNDAIncludedHeight sleep fuel node n w in
  outcome r = Returns None ->
  exists fn,
    node = PtrFullNode (Some fn)
    /\ fn_GetDAIncludedHeight fn (final r) <> 0
    /\ n <= fn_GetDAIncludedHeight fn (final r).
Proof.
  intros r Hnil. subst r. unfold waitForAtLeastNDAIncludedHeight, Retry in *.
  destruct (Retry_from_returns sleep (100 * Millisecond)
              (atLeastNDAIncludedHeight node n) fuel 1 300 w Hnil) as [w0 E].
  pose proof (atLeastNDAIncludedHeight_world node n w0) as Hw.
  rewrite E in Hw. cbn [snd] in Hw. rewrite Hw.
  assert (E1 : fst (atLeastNDAIncludedHeight node n w0) = Returns None)
    by (rewrite E; reflexivity).
  destruct node as [[f |] | p | |];
    try (unfold atLeastNDAIncludedHeight in E1; discriminate E1).
  exists f. split; [reflexivity |].
  apply atLeastNDAIncludedHeight_nil. exact E1.
Qed.

(** X13. On a full node whose DA-included height is a [uint64],
    [waitForFirstBlockToBeDAIncludedHeight] returns no error but the one
    of waiting for DA inclusion: with target 1 the error of a height
    below the target cannot arise. *)
Theorem waitForFirstBlockToBeDAIncludedHeight_error
  (fuel : nat) (fnode : FullNode World) (w : World) (e : error) :
  (forall w', 0 <= fn_GetDAIncludedHeight fnode w') ->
  outcome (waitForFirstBlockToBeDAIncludedHeight sleep fuel
             (PtrFullNode (Some fnode)) w) = Returns (Some e) ->
  e = fmt_Errorf "waiting for DA inclusion" [].
Proof.
  intros Hpos Hout.
  unfold waitForFirstBlockToBeDAIncludedHeight, waitForAtLeastNDAIncludedHeight,
    Retry in Hout.
  destruct (Retry_from_returns sleep (100 * Millisecond)
              (atLeastNDAIncludedHeight (PtrFullNode (Some fnode)) 1)
              fuel 1 300 w Hout) as [w0 E].
  revert E. unfold atLeastNDAIncludedHeight. cbn [as_FullNode deref].
  pose proof (Hpos w0) as H0.
  destruct (Z.eqb_spec (fn_GetDAIncludedHeight fnode w0) 0) as [Ez | Ez].
  - intros E. injection E as <- _. reflexivity.
  - destruct (Z.leb_spec 1 (fn_GetDAIncludedHeight fnode w0)) as [L | L];
      [intros E; discriminate E | lia].
Qed.

End WaitFacts.

(** ** [safeClose] *)

(** X16. With no other goroutine at the channel, [safeClose] of a channel
    that is not nil never panics. On a channel with nothing pending it
    leaves the channel closed, and a second call changes nothing; with a
    value pending it takes that value and does not close the channel. *)
Theorem safeClose_alone (c : Chan) :
  let r := safeClose (fun c => c) (Some c) in
  fst r = Returns tt
  /\ (pending c = O ->
      snd r = Some (mkChan 0 true)
      /\ safeClose (fun c => c) (snd r) = (Returns tt, snd r))
  /\ (forall k, pending c = S k -> snd r = Some (mkChan k (closed c))).
Proof.
  destruct c as [[| k] [|]]; cbn; repeat split; try discriminate;
    intros k' E; injection E as <-; reflexivity.
Qed.

(** X17. [safeClose] panics exactly on the nil channel, and on an open
    channel with nothing pending that another goroutine closes between
    the [select] and the [close]. *)
Theorem safeClose_panics_iff (meanwhile : Chan -> Chan) (ch : option Chan) :
  (exists e, fst (safeClose meanwhile ch) = Panics e)
  <-> ch = None
      \/ exists c,
           ch = Some c /\ pending c = O /\ closed c = false
           /\ closed (meanwhile c) = true.
Proof.
  destruct ch as [[[| k] [|]] |]; cbn [safeClose pending closed close fst].
  - split; [intros [e He]; discriminate He |].
    intros [E | (c & E & _ & Hc & _)]; [discriminate E |].
    injection E as <-. discriminate Hc.
  - destruct (closed (meanwhile (mkChan 0 false))) eqn:Em; cbn [fst].
    + split; [| intros _; eexists; reflexivity].
      intros _. right. eexists. repeat split. exact Em.
    + split; [intros [e He]; discriminate He |].
      intros [E | (c & E & _ & _ & Hc)]; [discriminate E |].
      injection E as <-. congruence.
  - split; [intros [e He]; discriminate He |].
    intros [E | (c & E & Hp & _)]; [discriminate E |].
    injection E as <-. discriminate Hp.
  - split; [intros [e He]; discriminate He |].
    intros [E | (c & E & Hp & _)]; [discriminate E |].
    injection E as <-. discriminate Hp.
  - split; [intros _; left; reflexivity | intros _; eexists; reflexivity].
Qed.

(** ** [InitFiles] *)

(** X18. [InitFiles] creates the config directory with mode 0700 and only
    then loads or generates the key, at the same path. When the directory
    cannot be created the key is not touched; when either step fails the
    result is no key and the step's error wrapped, also when the loader
    returned a key beside its error; otherwise it is the loader's key
    with no error. So a key and an error are never returned together. *)
Theorem InitFiles_results
  (FS NodeKey : Type) (filepath_Join : string -> string -> string)
  (os_MkdirAll : string -> Z -> FS -> option error * FS)
  (key_LoadOrGenNodeKey : string -> FS -> (option NodeKey * option error) * FS)
  (dir : string) (fs : FS) :
  let r := InitFiles filepath_Join os_MkdirAll key_LoadOrGenNodeKey dir fs in
  let configDir := filepath_Join dir "config" in
  ((exists e fs1,
       os_MkdirAll configDir 448 fs = (Some e, fs1)
       /\ outcome r
          = Returns (None, Some (fmt_Errorf_w "failed to create config directory: %w" e))
       /\ final r = fs1
       /\ trace r = [EvMkdirAll configDir 448 (Some e)])
   \/ (exists fs1 k e fs2,
          os_MkdirAll configDir 448 fs = (None, fs1)
          /\ key_LoadOrGenNodeKey configDir fs1 = ((k, Some e), fs2)
          /\ outcome r
             = Returns (None, Some (fmt_Errorf_w "failed to create node key: %w" e))
          /\ final r = fs2
          /\ trace r = [EvMkdirAll configDir 448 None;
                        EvLoadOrGenNodeKey configDir (Some e)])
   \/ (exists fs1 k fs2,
          os_MkdirAll configDir 448 fs = (None, fs1)
          /\ key_LoadOrGenNodeKey configDir fs1 = ((k, None), fs2)
          /\ outcome r = Returns (k, None)
          /\ final r = fs2
          /\ trace r = [EvMkdirAll configDir 448 None;
                        EvLoadOrGenNodeKey configDir None]))
  /\ (forall k e, outcome r <> Returns (Some k, Some e)).
Proof.
  intros r configDir. subst r.
  unfold InitFiles, bind, MkdirAll, LoadOrGenNodeKey, call, ret, perm_0700.
  fold configDir.
  destruct (os_MkdirAll configDir 448 fs) as [[e |] fs1] eqn:E1;
    cbn [outcome final trace app].
  - split; [| discriminate].
    left. exists e, fs1. repeat split.
  - destruct (key_LoadOrGenNodeKey configDir fs1) as [[k [e |]] fs2] eqn:E2;
      cbn [outcome final trace fst snd app].
    + split; [| discriminate].
      right; left. exists fs1, k, e, fs2. repeat split; assumption.
    + split; [| discriminate].
      right; right. exists fs1, k, fs2. repeat split; assumption.
Qed.

(** * The properties on concrete runs *)

(** ** Conditions the scripted collaborators meet *)

Lemma script_single_writer (p : Script.Plan) :
  Script.intruder p = None ->
  single_writer (Script.isDAIncluded p) (Script.setFinal p) (Script.setMetadata p).
Proof.
  intros Hp. unfold single_writer. repeat split.
  - intros h m. unfold Script.isDAIncluded.
    destruct (Script.mem h (Script.undetermined p)); reflexivity.
  - intros h m. unfold Script.setFinal.
    destruct (Script.mem h (Script.finalRefused p)); reflexivity.
  - intros k v m. unfold Script.setMetadata. rewrite Hp.
    destruct (Script.mem (Uint64 v) (Script.storeRefused p)); reflexivity.
Defined.


Lemma script_commits (p : Script.Plan) (h : Z) :
  Script.mem h (Script.finalRefused p) = false ->
  Script.storeRefused p = [] ->
  commits Script.key (Script.setFinal p) (Script.setMetadata p) h.
Proof.
  intros Hf Hs. split; intros m.
  - unfold Script.setFinal. rewrite Hf. reflexivity.
  - unfold Script.setMetadata. rewrite Hs. reflexivity.
Defined.

(** ** C1 *)



(** ** C3 *)

(** The executor accepts height 1 and the store refuses it: the call
    returns the store's error and the cell still holds 0. *)
Lemma store_failure_keeps_height_witness :
  let r := Script.increment Script.store_refused (Script.start 0) in
  outcome r = Returns (Some (errors_New "write refused"))
  /\ daIncludedHeight (final r) = 0.
Proof.
  cbv zeta.
  pose proof (@store_failure_keeps_height Script.Env Script.key
                (Script.setFinal Script.store_refused)
                (Script.setMetadata Script.store_refused)
                (Script.start 0)
                (mkManager 0 (Script.mkEnv [1] []))
                (mkManager 0 (Script.mkEnv [1] []))
                (errors_New "write refused")) as W.
  cbv zeta in W.
  destruct W as (Hout & _ & Hcell & _); try (vm_compute; reflexivity).
  split; [exact Hout | exact Hcell].
Defined.

(** ** C4 *)

(** C4 fails on the code at the largest height: with the cell at
    [2^64 - 1] and the oracle confirming height 0, one wake-up replaces
    the cell's value by 0. *)
Lemma height_wraps_at_max :
  let r := Script.loop Script.confirms_zero 2 [DaIncluderCh] (Script.start MaxUint64) in
  outcome r = Returns Idle
  /\ In (EvCompareAndSwap MaxUint64 0 true) (trace r)
  /\ daIncludedHeight (final r) = 0
  /\ daIncludedHeight (final r) < daIncludedHeight (Script.start MaxUint64).
Proof.
  cbv zeta. split; [reflexivity |]. split.
  - vm_compute. auto 10.
  - split; reflexivity.
Qed.

(** Two wake-ups from height 10: every write is an increment and the cell
    has not decreased. *)
Lemma height_steps_up_by_one_witness :
  let r := Script.loop Script.gap_at_13 5 [DaIncluderCh; DaIncluderCh] (Script.start 10) in
  Forall write_is_increment (trace r)
  /\ daIncludedHeight (Script.start 10) <= daIncludedHeight (final r).
Proof.
  cbv zeta.
  destruct (@height_steps_up_by_one Script.Env Script.key
              (Script.isDAIncluded Script.gap_at_13)
              (Script.setFinal Script.gap_at_13)
              (Script.setMetadata Script.gap_at_13)
              5%nat [DaIncluderCh; DaIncluderCh] (Script.start 10))
    as (Hsteps & Hcell).
  split; [exact Hsteps |].
  destruct Hcell as (_ & Hle).
  - apply script_single_writer. reflexivity.
  - unfold is_uint64. vm_compute. split; discriminate.
  - apply Hle. vm_compute. discriminate.
Defined.

(** ** C5 *)


(** ** C6 *)


(** ** C7 *)

(** Three tries: [fn] failing twice then succeeding gives nil after 3
    invocations; [fn] failing three times gives the third error. *)
Lemma Retry_attempts_witness :
  (let r := Retry Script.idle 3 3 (10 * Millisecond) (Script.failing 2) 0 in
   outcome r = Returns None /\ invocations (trace r) = 3%nat)
  /\ (let r := Retry Script.idle 3 3 (10 * Millisecond) (Script.failing 3) 0 in
      outcome r = Returns (Some (fmt_Errorf "attempt %d failed" [3]))
      /\ invocations (trace r) = 3%nat).
Proof.
  cbv zeta. split.
  - destruct (@Retry_attempts Z Script.idle 3%nat 3 (10 * Millisecond)
                (Script.failing 2) 0) as (_ & Hfirst & _).
    + unfold MaxInt. lia.
    + apply Nat.leb_le. reflexivity.
    + destruct (Hfirst 2%nat) as (Hout & Hn & _).
      * apply Nat.ltb_lt. reflexivity.
      * intros i Hi. assert (Hcases : i = 0%nat \/ i = 1%nat) by lia.
        destruct Hcases as [-> | ->]; eexists; reflexivity.
      * reflexivity.
      * split; [exact Hout | exact Hn].
  - destruct (@Retry_attempts Z Script.idle 3%nat 3 (10 * Millisecond)
                (Script.failing 3) 0) as (_ & _ & Hall).
    + unfold MaxInt. lia.
    + apply Nat.leb_le. reflexivity.
    + destruct Hall as (Hout & _ & Hn).
      * intros i Hi.
        assert (Hcases : i = 0%nat \/ i = 1%nat \/ i = 2%nat) by (cbn in Hi; lia).
        destruct Hcases as [-> | [-> | ->]]; eexists; reflexivity.
      * split; [exact Hout | exact Hn].
Defined.

(** ** C8 *)

(** The block view of a light node. *)
Lemma getNodeHeight_unsupported_witness :
  exists e : error,
    getNodeHeight (PtrLightNode (Some (Script.lightNode 4))) Block tt
    = Returns (0, Some e).
Proof.
  apply getNodeHeight_unsupported. reflexivity.
Defined.

(** ** C9 *)

(** C9 fails on the code at the least [int]: there [tries - 1] overflows
    to the greatest [int], the loop body runs, and a [fn] that fails once
    is invoked twice. *)
Lemma Retry_least_tries_loops :
  let r := Retry Script.idle 2 MinInt (10 * Millisecond) (Script.failing 1) 0 in
  MinInt <= 1
  /\ int_wrap (MinInt - 1) = MaxInt
  /\ outcome r = Returns None
  /\ invocations (trace r) = 2%nat.
Proof.
  cbv zeta. repeat split. vm_compute. discriminate.
Qed.

(** Zero tries: one invocation, whose error is returned. *)
Lemma Retry_single_invocation_witness :
  let r := Retry Script.idle 1 0 (10 * Millisecond) (Script.failing 1) 0 in
  invocations (trace r) = 1%nat
  /\ outcome r = Returns (Some (fmt_Errorf "attempt %d failed" [1])).
Proof.
  cbv zeta.
  destruct (@Retry_single_invocation Z Script.idle 0%nat 0 (10 * Millisecond)
              (Script.failing 1) 0) as (_ & Hn & Hout & _).
  - unfold MinInt. lia.
  - split; [exact Hn | exact Hout].
Defined.

(** ** C10 *)

(** A full node that stays at height 0, waited on with target 0. *)
Lemma waitForAtLeastNDAIncludedHeight_zero_height_witness :
  let r := waitForAtLeastNDAIncludedHeight (fun _ w => w) 300
             (PtrFullNode (Some (Script.fullNode 0))) 0 tt in
  outcome r = Returns (Some (fmt_Errorf "waiting for DA inclusion" []))
  /\ invocations (trace r) = 300%nat.
Proof.
  cbv zeta.
  destruct (@waitForAtLeastNDAIncludedHeight_zero_height unit (fun _ w => w)
              (Script.fullNode 0)) as (_ & Hzero).
  apply Hzero.
  - intros w. reflexivity.
  - apply Nat.leb_le. reflexivity.
Defined.

(** ** The further properties on concrete runs *)

Lemma script_stable_oracle (p : Script.Plan) : stable_oracle (Script.isDAIncluded p).
Proof.
  intros h m1 m2. unfold Script.isDAIncluded.
  destruct (Script.mem h (Script.undetermined p)); reflexivity.
Defined.

Lemma eager_single_writer :
  single_writer eager_oracle (Script.setFinal no_refusal) (Script.setMetadata no_refusal).
Proof.
  unfold single_writer. repeat split; intros; reflexivity.
Defined.


(** The store refuses height 1: [SetFinal] was called for 1, one height
    beyond the cell, and the run panicked. *)
Lemma finality_calls_consecutive_witness :
  let r := Script.loop Script.store_refused 5 [DaIncluderCh; DaIncluderCh]
             (Script.start 0) in
  final_calls (trace r) = [1] /\ daIncludedHeight (final r) = 0.
Proof.
  cbv zeta.
  destruct (@finality_calls_consecutive Script.Env Script.key
              (Script.isDAIncluded Script.store_refused)
              (Script.setFinal Script.store_refused)
              (Script.setMetadata Script.store_refused)
              (@script_single_writer Script.store_refused eq_refl)
              5%nat [DaIncluderCh; DaIncluderCh] (Script.start 0))
    as (Hcell & _ & Hfail).
  split.
  - exact (Hfail _ eq_refl).
  - exact Hcell.
Defined.

(** From height 10 a first wake-up ends at 12; a second one asks about 13
    again and commits nothing. *)
Lemma second_trigger_commits_nothing_witness :
  let r1 := Script.loop Script.gap_at_13 5 [DaIncluderCh] (Script.start 10) in
  let r2 := Script.loop Script.gap_at_13 1 [DaIncluderCh] (final r1) in
  outcome r2 = Returns Idle
  /\ commit_steps (trace r2) = []
  /\ List.length (oracle_answers (trace r2)) = 1%nat
  /\ daIncludedHeight (final r2) = daIncludedHeight (final r1).
Proof.
  cbv zeta.
  apply (@second_trigger_commits_nothing Script.Env Script.key
           (Script.isDAIncluded Script.gap_at_13)
           (Script.setFinal Script.gap_at_13)
           (Script.setMetadata Script.gap_at_13)
           (@script_single_writer Script.gap_at_13 eq_refl)
           5%nat 0%nat (Script.start 10)
           (script_stable_oracle Script.gap_at_13)).
  reflexivity.
Defined.

(** The oracle confirms everything: after 3 rounds the pass has committed
    3 heights and is still running; the cancellation behind the trigger
    is not served. *)
Lemma drain_pass_unbounded_witness :
  let r := DAIncluderLoop Script.key eager_oracle (Script.setFinal no_refusal)
             (Script.setMetadata no_refusal) 3 [DaIncluderCh; CtxDone]
             (Script.start 0) in
  outcome r = OutOfFuel /\ swaps (trace r) = 3%nat /\ daIncludedHeight (final r) = 3.
Proof.
  cbv zeta.
  apply (@drain_pass_unbounded Script.Env Script.key eager_oracle
           (Script.setFinal no_refusal) (Script.setMetadata no_refusal)
           eager_single_writer 3%nat [CtxDone] (Script.start 0)).
  - intros h m. reflexivity.
  - intros h. apply script_commits; reflexivity.
Defined.

Lemma height_record_round_trip_witness :
  List.length (PutUint64 12) = 8%nat /\ Uint64 (PutUint64 12) = 12.
Proof.
  destruct (@height_record_round_trip 12) as (Hl & Hr & _).
  - unfold is_uint64. vm_compute. split; discriminate.
  - split; [exact Hl | exact Hr].
Defined.

(** Three tries with [fn] failing twice: two sleeps of 10 ms. *)
Lemma Retry_trace_shape_witness :
  let r := Retry Script.idle 3 3 (10 * Millisecond) (Script.failing 2) 0 in
  exists errs,
    trace r = retry_trace (10 * Millisecond) errs (outcome r)
    /\ sleeps (trace r) = repeat (10 * Millisecond) (List.length errs).
Proof.
  cbv zeta.
  destruct (@Retry_trace_shape Z Script.idle (10 * Millisecond) (Script.failing 2)
              3%nat 3 0) as (errs & Htr & _ & _ & _ & Hs).
  - unfold MaxInt. lia.
  - apply Nat.leb_le. reflexivity.
  - exists errs. split; [exact Htr | exact Hs].
Defined.

(** A full node at height 5, waited on for 3 blocks of the header view. *)
Lemma waitForAtLeastNBlocks_sound_witness :
  let r := waitForAtLeastNBlocks (fun _ w => w) 300
             (PtrFullNode (Some (Script.fullNode 5))) 3 Header tt in
  exists h,
    getNodeHeight (PtrFullNode (Some (Script.fullNode 5))) Header (final r)
    = Returns (h, None) /\ 3 <= h.
Proof.
  cbv zeta.
  apply (@waitForAtLeastNBlocks_sound unit (fun _ w => w) 300%nat
           (PtrFullNode (Some (Script.fullNode 5))) 3 Header tt).
  reflexivity.
Defined.

(** The block view of a light node: 300 polls, 299 sleeps, then the error. *)
Lemma waitForAtLeastNBlocks_unsupported_witness :
  let r := waitForAtLeastNBlocks (fun _ w => w) 300
             (PtrLightNode (Some (Script.lightNode 4))) 1 Block tt in
  exists e,
    outcome r = Returns (Some e)
    /\ invocations (trace r) = 300%nat
    /\ sleeps (trace r) = repeat (100 * Millisecond) 299.
Proof.
  cbv zeta.
  destruct (@waitForAtLeastNBlocks_unsupported unit (fun _ w => w) 300%nat
              (PtrLightNode (Some (Script.lightNode 4))) 1 Block tt)
    as (e & _ & Hout & Hn & Hs).
  - reflexivity.
  - apply Nat.leb_le. reflexivity.
  - exists e. repeat split; assumption.
Defined.

(** A height that grows by one per sleep, from 0, waited on for 2 blocks:
    three polls. *)
Lemma waitForAtLeastNBlocks_reached_witness :
  let r := waitForAtLeastNBlocks tick 300 (PtrFullNode (Some growing_node)) 2 Header 0 in
  outcome r = Returns None /\ invocations (trace r) = 3%nat /\ final r = 2.
Proof.
  cbv zeta.
  apply (@waitForAtLeastNBlocks_reached Z tick 300%nat 2%nat
           (PtrFullNode (Some growing_node)) 2 2 Header 0).
  - apply Nat.leb_le. reflexivity.
  - apply Nat.ltb_lt. reflexivity.
  - intros i Hi. assert (Hcases : i = 0%nat \/ i = 1%nat) by lia.
    destruct Hcases as [-> | ->]; vm_compute; reflexivity.
  - reflexivity.
  - vm_compute. discriminate.
Defined.


(** A full node at DA-included height 5, waited on for height 3. *)
Lemma waitForAtLeastNDAIncludedHeight_sound_witness :
  let r := waitForAtLeastNDAIncludedHeight (fun _ w => w) 300
             (PtrFullNode (Some (Script.fullNode 5))) 3 tt in
  exists fn,
    PtrFullNode (Some (Script.fullNode 5)) = PtrFullNode (Some fn)
    /\ fn_GetDAIncludedHeight fn (final r) <> 0
    /\ 3 <= fn_GetDAIncludedHeight fn (final r).
Proof.
  cbv zeta.
  apply (@waitForAtLeastNDAIncludedHeight_sound unit (fun _ w => w) 300%nat
           (PtrFullNode (Some (Script.fullNode 5))) 3 tt).
  reflexivity.
Defined.

(** A full node that stays at height 0, waited on for its first block. *)
Lemma waitForFirstBlockToBeDAIncludedHeight_error_witness :
  exists e,
    outcome (waitForFirstBlockToBeDAIncludedHeight (fun _ w => w) 300
               (PtrFullNode (Some (Script.fullNode 0))) tt) = Returns (Some e)
    /\ e = fmt_Errorf "waiting for DA inclusion" [].
Proof.
  assert (H : outcome (waitForFirstBlockToBeDAIncludedHeight (fun _ w => w) 300
                         (PtrFullNode (Some (Script.fullNode 0))) tt)
              = Returns (Some (fmt_Errorf "waiting for DA inclusion" [])))
    by (vm_compute; reflexivity).
  eexists. split; [exact H |].
  apply (@waitForFirstBlockToBeDAIncludedHeight_error unit (fun _ w => w) 300%nat
           (Script.fullNode 0) tt _).
  - intros w'. vm_compute. discriminate.
  - exact H.
Defined.
